(** * SurveyAnalytics: the API response cache

    A shallow embedding of the cache utility of the analytics frontend
    (class [APICache], the singleton [apiCache], [fetchWithCache] and
    [clearCacheByPattern]) and the properties of it that the
    specification states.

    Conventions of the embedding.
    - JavaScript numbers that carry times (the readings of [Date.now()],
      TTLs, [timestamp], [expiresAt]) are whole milliseconds and are
      modelled as [Z]; [NaN] and fractional values are outside the model.
    - [Date.now()] is the clock of the surrounding world.  The methods of
      the class take the reading as an explicit argument [now]; the
      functions that use the singleton run in the monad [M] over a
      [World], which owns the clock, the network and the singleton.
    - The ES6 [Map] of the class is an association list in insertion
      order, the order in which [Map.prototype.keys] enumerates it.
    - A call of [fetchWithCache] runs from its first line to its return
      or throw with no other task touching the singleton while it awaits;
      the clock moves at each [await] by the delay the network reports. *)

From Stdlib Require Import ZArith List String Ascii Bool Lia.
Import ListNotations.
Local Open Scope string_scope.
Local Open Scope Z_scope.

Set Implicit Arguments.

(** ** JavaScript values held by the cache *)

(** What [response.json()] can produce, together with [undefined], which a
    direct caller of [apiCache.set] may store.  The cache itself only ever
    compares a value with [null]. *)
#[warnings="-register-all"]
Inductive value : Type :=
| VUndefined
| VNull
| VBool (b : bool)
| VNum (n : Z)
| VStr (s : string)
| VArr (items : list value)
| VObj (fields : list (string * value)).

(** [v !== null]. *)
Definition not_null (v : value) : bool :=
  match v with
  | VNull => false
  | _ => true
  end.

(** [a || b] on an optional number: [undefined] and [0] are falsy. *)
Definition num_or (a : option Z) (b : Z) : Z :=
  match a with
  | Some n => if n =? 0 then b else n
  | None => b
  end.

(** [a ?? b] on an optional number: only [undefined] falls through.  The
    code never uses it; it is the operator the specification names. *)
Definition num_nullish (a : option Z) (b : Z) : Z :=
  match a with
  | Some n => n
  | None => b
  end.

(** [a || b] on an optional string: [undefined] and [""] are falsy. *)
Definition str_or (a : option string) (b : string) : string :=
  match a with
  | Some "" => b
  | Some s => s
  | None => b
  end.

(** [String.prototype.includes]: [pat] occurs in [s] at some offset. *)
Fixpoint includes (s pat : string) : bool :=
  if String.prefix pat s then true
  else match s with
       | EmptyString => false
       | String _ rest => includes rest pat
       end.

(** ** The ES6 Map, in insertion order *)

Module JsMap.
Section WithValue.
Variable V : Type.

Definition t : Type := list (string * V).

Definition empty : t := [].

(** [Map.prototype.get]; [None] is [undefined]. *)
Fixpoint get (k : string) (m : t) : option V :=
  match m with
  | [] => None
  | (k', v) :: rest => if String.eqb k' k then Some v else get k rest
  end.

(** [Map.prototype.set]: an existing key keeps its position, a new key
    goes to the end. *)
Fixpoint set (k : string) (v : V) (m : t) : t :=
  match m with
  | [] => [(k, v)]
  | (k', v') :: rest =>
      if String.eqb k' k then (k, v) :: rest else (k', v') :: set k v rest
  end.

(** [Map.prototype.delete]. *)
Fixpoint delete (k : string) (m : t) : t :=
  match m with
  | [] => []
  | (k', v) :: rest =>
      if String.eqb k' k then delete k rest else (k', v) :: delete k rest
  end.

(** [Array.from(m.keys())]. *)
Definition keys (m : t) : list string := map fst m.

(** [m.size]. *)
Definition size (m : t) : nat := List.length m.

(** A [Map] holds each key once. *)
Definition wf (m : t) : Prop := NoDup (keys m).
End WithValue.
End JsMap.

(** ** class APICache *)

Record CacheItem : Type := mkItem {
data : value;
timestamp : Z;
expiresAt : Z
}.

Record APICache : Type := mkCache {
cache : JsMap.t CacheItem;
defaultTTL : Z
}.

Module Cache.

(** [constructor(defaultTTL = 5 * 60 * 1000)]. *)
Definition new (ttl : option Z) : APICache :=
  {| cache := JsMap.empty CacheItem;
     defaultTTL := match ttl with Some d => d | None => 5 * 60 * 1000 end |}.

Definition with_cache (c : APICache) (m : JsMap.t CacheItem) : APICache :=
  {| cache := m; defaultTTL := defaultTTL c |}.

(** [set<T>(key, data, ttl?)], called when [Date.now()] reads [now]. *)
Definition set (key : string) (d : value) (ttl : option Z) (now : Z)
    (c : APICache) : APICache :=
  let expires := now + num_or ttl (defaultTTL c) in
  with_cache c
    (JsMap.set key {| data := d; timestamp := now; expiresAt := expires |}
       (cache c)).

(** [get<T>(key)], called when [Date.now()] reads [now]: the returned
    value ([VNull] for the [null] of the code) and the cache afterwards. *)
Definition get (key : string) (now : Z) (c : APICache) : value * APICache :=
  match JsMap.get key (cache c) with
  | None => (VNull, c)
  | Some item =>
      if now >? expiresAt item
      then (VNull, with_cache c (JsMap.delete key (cache c)))
      else (data item, c)
  end.

(** [has(key)]: [this.get(key) !== null]. *)
Definition has (key : string) (now : Z) (c : APICache) : bool * APICache :=
  let (v, c') := get key now c in (not_null v, c').

(** [delete(key)]. *)
Definition delete (key : string) (c : APICache) : APICache :=
  with_cache c (JsMap.delete key (cache c)).

(** [clear()]. *)
Definition clear (c : APICache) : APICache :=
  with_cache c (JsMap.empty CacheItem).

(** [clearExpired()], called when [Date.now()] reads [now].  The loop
    walks [this.cache.entries()] in insertion order and deletes only the
    entry it is visiting, so it visits every entry the map held when the
    loop began. *)
Definition clearExpired (now : Z) (c : APICache) : APICache :=
  with_cache c
    (fold_left
       (fun (m : JsMap.t CacheItem) (e : string * CacheItem) =>
          let (key, item) := e in
          if now >? expiresAt item then JsMap.delete key m else m)
       (cache c) (cache c)).

(** [size()]. *)
Definition size (c : APICache) : nat := JsMap.size (cache c).

(** [getStats()]. *)
Record Stats : Type := mkStats { stats_size : nat; stats_keys : list string }.

Definition getStats (c : APICache) : Stats :=
  {| stats_size := JsMap.size (cache c);
     stats_keys := JsMap.keys (cache c) |}.

(** The entry stored under [key], if any, whatever its age. *)
Definition entry (key : string) (c : APICache) : option CacheItem :=
  JsMap.get key (cache c).

End Cache.

(** The instances a program can hold: what [new APICache(ttl)] builds and
    what the methods make of it, whenever they are called. *)
Inductive reachable : APICache -> Prop :=
| reach_new (ttl : option Z) : reachable (Cache.new ttl)
| reach_set (key : string) (d : value) (ttl : option Z) (now : Z)
    (c : APICache) :
    reachable c -> reachable (Cache.set key d ttl now c)
| reach_get (key : string) (now : Z) (c : APICache) :
    reachable c -> reachable (snd (Cache.get key now c))
| reach_has (key : string) (now : Z) (c : APICache) :
    reachable c -> reachable (snd (Cache.has key now c))
| reach_delete (key : string) (c : APICache) :
    reachable c -> reachable (Cache.delete key c)
| reach_clear (c : APICache) :
    reachable c -> reachable (Cache.clear c)
| reach_clearExpired (now : Z) (c : APICache) :
    reachable c -> reachable (Cache.clearExpired now c).

(** ** The world around the singleton: clock, network, [apiCache] *)

(** The part of [RequestInit] that the cache and the server look at;
    [init_method] is [options.method]. *)
Record RequestInit : Type := mkInit {
  init_method : option string;
  init_body : option string
}.

Definition Request : Type := (string * option RequestInit)%type.

(** A [Response]: [ok], [status], and what [response.json()] does, which
    resolves with [Some v] after [json_delay] milliseconds or rejects
    ([None]) when the body is not JSON. *)
Record Response : Type := mkResponse {
  ok : bool;
  status : Z;
  json : option value;
  json_delay : Z
}.

(** What [await fetch(url, options)] does: after [delay] milliseconds the
    promise rejects (no connection) or resolves with a response. *)
Inductive Exchange : Type :=
| Rejects (delay : Z)
| Resolves (delay : Z) (r : Response).

(** [server n req] is the network's answer to the request [req] when it is
    the [n]-th one sent (counting from 0); [requests] logs the requests
    sent so far, oldest first. *)
Record World : Type := mkWorld {
  apiCache : APICache;
  clock : Z;
  server : nat -> Request -> Exchange;
  requests : list Request
}.

Inductive error : Type :=
| HttpError (status : Z)   (* new Error(`HTTP error! status: ${status}`) *)
| NetworkError             (* the rejection of fetch *)
| SyntaxError.             (* the rejection of response.json() *)

Inductive outcome (A : Type) : Type :=
| Return (a : A)
| Throw (e : error).
Arguments Return {A} a.
Arguments Throw {A} e.

(** Computations over the world that return or throw. *)
Definition M (A : Type) : Type := World -> outcome A * World.

Definition ret {A : Type} (a : A) : M A := fun w => (Return a, w).

Definition throw {A : Type} (e : error) : M A := fun w => (Throw e, w).

Definition bind {A B : Type} (c : M A) (k : A -> M B) : M B :=
  fun w =>
    match c w with
    | (Return a, w') => k a w'
    | (Throw e, w') => (Throw e, w')
    end.

Notation "x <- c ;; k" := (bind c (fun x => k))
  (at level 61, c at next level, right associativity).
Notation "c ;; k" := (bind c (fun _ => k))
  (at level 61, right associativity).

Definition with_apiCache (w : World) (c : APICache) : World :=
  {| apiCache := c; clock := clock w; server := server w;
     requests := requests w |}.

Definition with_clock (w : World) (t : Z) : World :=
  {| apiCache := apiCache w; clock := t; server := server w;
     requests := requests w |}.

(** Time passing while nothing runs: [d] milliseconds go by. *)
Definition elapse (d : Z) : M unit :=
  fun w => (Return tt, with_clock w (clock w + d)).

(** The methods of the singleton, reading [Date.now()] off the clock. *)
Definition apiCache_get (key : string) : M value :=
  fun w =>
    let (v, c) := Cache.get key (clock w) (apiCache w) in
    (Return v, with_apiCache w c).

Definition apiCache_has (key : string) : M bool :=
  fun w =>
    let (b, c) := Cache.has key (clock w) (apiCache w) in
    (Return b, with_apiCache w c).

Definition apiCache_set (key : string) (d : value) (ttl : option Z) : M unit :=
  fun w =>
    (Return tt, with_apiCache w (Cache.set key d ttl (clock w) (apiCache w))).

Definition apiCache_delete (key : string) : M unit :=
  fun w => (Return tt, with_apiCache w (Cache.delete key (apiCache w))).

Definition apiCache_getStats : M Cache.Stats :=
  fun w => (Return (Cache.getStats (apiCache w)), w).

Definition apiCache_size : M nat :=
  fun w => (Return (Cache.size (apiCache w)), w).

(** [await fetch(url, options)]: the request goes out and is logged, the
    clock moves by the delay of the exchange. *)
Definition fetch (url : string) (options : option RequestInit) : M Response :=
  fun w =>
    let req := (url, options) in
    let w' (d : Z) :=
      {| apiCache := apiCache w; clock := clock w + d; server := server w;
         requests := requests w ++ [req] |} in
    match server w (List.length (requests w)) req with
    | Rejects d => (Throw NetworkError, w' d)
    | Resolves d r => (Return r, w' d)
    end.

(** [await response.json()]. *)
Definition response_json (r : Response) : M value :=
  fun w =>
    let w' := with_clock w (clock w + json_delay r) in
    match json r with
    | Some v => (Return v, w')
    | None => (Throw SyntaxError, w')
    end.

(** ** fetchWithCache *)

(** [options?.method || 'GET']. *)
Definition methodOf (options : option RequestInit) : string :=
  str_or (match options with Some o => init_method o | None => None end) "GET".

(** [`${method}:${url}`]. *)
Definition cacheKeyOf (options : option RequestInit) (url : string) : string :=
  (methodOf options ++ ":" ++ url)%string.

(** The body of [fetchWithCache] from [await fetch] on, the part reached
    when the lookup is skipped or misses.  The [console.log] lines write
    nothing that the cache or the caller reads and are left out. *)
Definition fetchFromAPI (url : string) (options : option RequestInit)
    (cacheTTL : option Z) : M value :=
  let method := methodOf options in
  let cacheKey := cacheKeyOf options url in
  response <- fetch url options ;;
  if negb (ok response) then throw (HttpError (status response))
  else
    d <- response_json response ;;
    (if String.eqb method "GET" then apiCache_set cacheKey d cacheTTL
     else ret tt) ;;
    ret d.

Definition fetchWithCache (url : string) (options : option RequestInit)
    (cacheTTL : option Z) : M value :=
  let method := methodOf options in
  let cacheKey := cacheKeyOf options url in
  if String.eqb method "GET" then
    cached <- apiCache_get cacheKey ;;
    if not_null cached then ret cached
    else fetchFromAPI url options cacheTTL
  else fetchFromAPI url options cacheTTL.

(** ** clearCacheByPattern *)

(** [xs.forEach(f)]. *)
Fixpoint forEach {A : Type} (xs : list A) (f : A -> M unit) : M unit :=
  match xs with
  | [] => ret tt
  | x :: rest => f x ;; forEach rest f
  end.

Definition clearCacheByPattern (pattern : string) : M unit :=
  stats <- apiCache_getStats ;;
  let keys := Cache.stats_keys stats in
  let matchedKeys := filter (fun key => includes key pattern) keys in
  forEach matchedKeys (fun key => apiCache_delete key).

(** ** Observations used in the statements *)

(** The number of network requests a run from [w] to [w'] has sent. *)
Definition sent (w w' : World) : Z :=
  Z.of_nat (List.length (requests w')) - Z.of_nat (List.length (requests w)).

(** What the caller gets from a call that goes to the network, as the
    exchange alone decides it. *)
Definition answer (e : Exchange) : outcome value :=
  match e with
  | Rejects _ => Throw NetworkError
  | Resolves _ r =>
      if ok r then
        match json r with
        | Some v => Return v
        | None => Throw SyntaxError
        end
      else Throw (HttpError (status r))
  end.

(** The exchange that the next request of [w] meets, if it is [req]. *)
Definition next_exchange (w : World) (req : Request) : Exchange :=
  server w (List.length (requests w)) req.

(** The store that a call hands to its network part: the one its lookup
    left for a GET call, the one it found for any other. *)
Definition store_after_lookup (w : World) (url : string)
    (options : option RequestInit) : APICache :=
  if String.eqb (methodOf options) "GET"
  then snd (Cache.get (cacheKeyOf options url) (clock w) (apiCache w))
  else apiCache w.

(** The world at process start: the singleton of [new APICache()], the
    clock at [t0], nothing sent yet. *)
Definition boot (t0 : Z) (srv : nat -> Request -> Exchange) : World :=
  {| apiCache := Cache.new None; clock := t0; server := srv; requests := [] |}.

Unset Implicit Arguments.

(** * Properties *)

(** ** Strings *)

Lemma prefix_app (p s : string) :
  String.prefix p s = true <-> exists b, s = (p ++ b)%string.
Proof.
  revert s; induction p as [|a p IH]; intros s.
  - split; [intros _; now exists s | now destruct s].
  - destruct s as [|c s]; simpl.
    + split; [discriminate | intros [b Hb]; discriminate].
    + destruct (Ascii.ascii_dec a c) as [->|Hne].
      * rewrite IH. split; intros [b Hb]; exists b.
        -- now rewrite Hb.
        -- now injection Hb.
      * split; [discriminate | intros [b Hb]].
        injection Hb as Hc _. now elim Hne.
Qed.

(** [includes] is the substring test: [pat] sits in [s] between some [a]
    and some [b]. *)
Lemma includes_spec (s pat : string) :
  includes s pat = true <-> exists a b, s = (a ++ pat ++ b)%string.
Proof.
  induction s as [|c s IH]; cbn [includes].
  - destruct (String.prefix pat "") eqn:Hp.
    + split; [intros _ | reflexivity].
      apply prefix_app in Hp as [b Hb]. now exists ""%string, b.
    + split; [discriminate | intros [a [b Hab]]].
      destruct a; [|discriminate]. simpl in Hab.
      assert (String.prefix pat "" = true) by (apply prefix_app; now exists b).
      congruence.
  - destruct (String.prefix pat (String c s)) eqn:Hp.
    + split; [intros _ | reflexivity].
      apply prefix_app in Hp as [b Hb]. now exists ""%string, b.
    + rewrite IH. split.
      * intros [a [b Hab]]. exists (String c a), b. simpl. now rewrite Hab.
      * intros [a [b Hab]]. destruct a as [|c' a].
        -- simpl in Hab.
           assert (String.prefix pat (String c s) = true)
             by (apply prefix_app; now exists b).
           congruence.
        -- simpl in Hab. injection Hab as _ Hs. now exists a, b.
Qed.

(** ** The Map *)

Module JsMapFacts.
Section WithValue.
Variable V : Type.
Implicit Types (m : JsMap.t V) (k : string) (v : V).

Lemma get_set_same k v m : JsMap.get k (JsMap.set k v m) = Some v.
Proof.
  induction m as [|[k' v'] m IH]; simpl.
  - now rewrite String.eqb_refl.
  - destruct (String.eqb k' k) eqn:E; simpl.
    + now rewrite String.eqb_refl.
    + now rewrite E.
Qed.

Lemma get_set_other k k' v m :
  k' <> k -> JsMap.get k' (JsMap.set k v m) = JsMap.get k' m.
Proof.
  intros Hne. induction m as [|[k0 v0] m IH]; simpl.
  - apply String.eqb_neq in Hne. rewrite String.eqb_sym. now rewrite Hne.
  - destruct (String.eqb k0 k) eqn:E; simpl.
    + apply String.eqb_eq in E; subst k0.
      assert (String.eqb k k' = false) as ->
          by (apply String.eqb_neq; congruence).
      reflexivity.
    + now rewrite IH.
Qed.

Lemma get_delete_same k m : JsMap.get k (JsMap.delete k m) = None.
Proof.
  induction m as [|[k' v'] m IH]; simpl; [reflexivity|].
  destruct (String.eqb k' k) eqn:E; simpl; [assumption|].
  now rewrite E.
Qed.

Lemma get_delete_other k k' m :
  k' <> k -> JsMap.get k' (JsMap.delete k m) = JsMap.get k' m.
Proof.
  intros Hne. induction m as [|[k0 v0] m IH]; simpl; [reflexivity|].
  destruct (String.eqb k0 k) eqn:E; simpl.
  - apply String.eqb_eq in E; subst k0.
    assert (String.eqb k k' = false) as ->
        by (apply String.eqb_neq; congruence).
    assumption.
  - now rewrite IH.
Qed.

Lemma get_delete k k' m :
  JsMap.get k' (JsMap.delete k m) =
  if String.eqb k' k then None else JsMap.get k' m.
Proof.
  destruct (String.eqb_spec k' k) as [->|Hne].
  - apply get_delete_same.
  - now apply get_delete_other.
Qed.

Lemma keys_delete k m :
  JsMap.keys (JsMap.delete k m) =
  filter (fun k' => negb (String.eqb k' k)) (JsMap.keys m).
Proof.
  unfold JsMap.keys.
  induction m as [|[k' v'] m IH]; simpl; [reflexivity|].
  destruct (String.eqb k' k); simpl; now rewrite IH.
Qed.

Lemma in_keys_get k m : In k (JsMap.keys m) <-> JsMap.get k m <> None.
Proof.
  unfold JsMap.keys.
  induction m as [|[k' v'] m IH]; simpl.
  - split; [contradiction | congruence].
  - destruct (String.eqb_spec k' k) as [->|Hne].
    + split; [discriminate | now left].
    + rewrite <- IH. split; [intros [H|H]; [contradiction|assumption] | now right].
Qed.

Lemma not_in_keys_delete k m : ~ In k (JsMap.keys (JsMap.delete k m)).
Proof. rewrite in_keys_get, get_delete_same. congruence. Qed.

Lemma delete_absent k m : JsMap.get k m = None -> JsMap.delete k m = m.
Proof.
  induction m as [|[k' v'] m IH]; simpl; [reflexivity|].
  destruct (String.eqb k' k); [discriminate|].
  intros H. now rewrite IH.
Qed.

Lemma wf_delete k m : JsMap.wf m -> JsMap.wf (JsMap.delete k m).
Proof.
  unfold JsMap.wf. rewrite keys_delete. apply NoDup_filter.
Qed.

Lemma keys_set k v m :
  JsMap.keys (JsMap.set k v m) =
  if existsb (String.eqb k) (JsMap.keys m)
  then JsMap.keys m else (JsMap.keys m ++ [k])%list.
Proof.
  unfold JsMap.keys.
  induction m as [|[k' v'] m IH]; simpl; [reflexivity|].
  rewrite (String.eqb_sym k k').
  destruct (String.eqb_spec k' k) as [->|Hne]; simpl; [reflexivity|].
  rewrite IH. now destruct (existsb _ _).
Qed.

Lemma wf_set k v m : JsMap.wf m -> JsMap.wf (JsMap.set k v m).
Proof.
  unfold JsMap.wf. rewrite keys_set.
  destruct (existsb (String.eqb k) (JsMap.keys m)) eqn:E; [trivial|].
  intros Hnd. apply NoDup_app; [assumption | repeat constructor; simpl; tauto |].
  intros x Hx [Hk|[]]. subst x.
  assert (existsb (String.eqb k) (JsMap.keys m) = true); [|congruence].
  apply existsb_exists. exists k. split; [assumption | apply String.eqb_refl].
Qed.

(** Deleting a key that a well-formed map holds shrinks it by one. *)
Lemma size_delete k v m :
  JsMap.wf m -> JsMap.get k m = Some v ->
  S (JsMap.size (JsMap.delete k m)) = JsMap.size m.
Proof.
  unfold JsMap.wf, JsMap.size, JsMap.keys.
  induction m as [|[k' v'] m IH]; simpl; [discriminate|].
  intros Hnd Hget. inversion Hnd as [|? ? Hnotin Hnd']; subst.
  destruct (String.eqb_spec k' k) as [->|Hne].
  - f_equal. f_equal. apply delete_absent.
    destruct (JsMap.get k m) eqn:G; [|reflexivity].
    exfalso. apply Hnotin. apply in_keys_get. congruence.
  - simpl. f_equal. now apply IH.
Qed.

End WithValue.
End JsMapFacts.

(** ** The class *)

Module CacheFacts.

Lemma entry_set_same key d ttl now c :
  Cache.entry key (Cache.set key d ttl now c) =
  Some {| data := d; timestamp := now;
          expiresAt := now + num_or ttl (defaultTTL c) |}.
Proof. unfold Cache.entry, Cache.set; simpl. apply JsMapFacts.get_set_same. Qed.

Lemma entry_set_other key key' d ttl now c :
  key' <> key ->
  Cache.entry key' (Cache.set key d ttl now c) = Cache.entry key' c.
Proof.
  intros H. unfold Cache.entry, Cache.set; simpl.
  now apply JsMapFacts.get_set_other.
Qed.

Lemma entry_delete key key' c :
  Cache.entry key' (Cache.delete key c) =
  if String.eqb key' key then None else Cache.entry key' c.
Proof. unfold Cache.entry, Cache.delete; simpl. apply JsMapFacts.get_delete. Qed.

Lemma get_absent key now c :
  Cache.entry key c = None -> Cache.get key now c = (VNull, c).
Proof. unfold Cache.entry, Cache.get. now intros ->. Qed.

Lemma get_fresh key now c item :
  Cache.entry key c = Some item -> now <= expiresAt item ->
  Cache.get key now c = (data item, c).
Proof.
  unfold Cache.entry, Cache.get. intros -> Hle.
  destruct (now >? expiresAt item) eqn:E; [|reflexivity].
  apply Z.gtb_lt in E. lia.
Qed.

Lemma get_expired key now c item :
  Cache.entry key c = Some item -> expiresAt item < now ->
  Cache.get key now c = (VNull, Cache.delete key c).
Proof.
  unfold Cache.entry, Cache.get. intros -> Hlt.
  destruct (now >? expiresAt item) eqn:E; [reflexivity|].
  assert (~ expiresAt item < now) by (rewrite <- Z.gtb_lt; congruence). lia.
Qed.

(** What a read leaves in the store: the same store, or the store without
    the key that was read. *)
Lemma get_store key now c :
  snd (Cache.get key now c) = c \/
  snd (Cache.get key now c) = Cache.delete key c.
Proof.
  unfold Cache.get. destruct (JsMap.get key (cache c)) as [item|]; [|now left].
  destruct (now >? expiresAt item); [now right | now left].
Qed.

(** Once a read has answered [null], every later read of the key does. *)
Lemma get_null_stays key now now' c :
  fst (Cache.get key now c) = VNull ->
  fst (Cache.get key now' (snd (Cache.get key now c))) = VNull.
Proof.
  unfold Cache.get at 1 3.
  destruct (JsMap.get key (cache c)) as [item|] eqn:G; simpl.
  - destruct (now >? expiresAt item) eqn:E; simpl.
    + intros _. rewrite get_absent; [reflexivity|].
      unfold Cache.entry; simpl. apply JsMapFacts.get_delete_same.
    + intros Hnull. unfold Cache.get. rewrite G.
      destruct (now' >? expiresAt item); [reflexivity | assumption].
  - intros _. now rewrite get_absent.
Qed.

Lemma set_keeps_wf key d ttl now c :
  JsMap.wf (cache c) -> JsMap.wf (cache (Cache.set key d ttl now c)).
Proof. apply JsMapFacts.wf_set. Qed.

Lemma get_keeps_wf key now c :
  JsMap.wf (cache c) -> JsMap.wf (cache (snd (Cache.get key now c))).
Proof.
  intros H. destruct (get_store key now c) as [-> | ->]; [assumption|].
  now apply JsMapFacts.wf_delete.
Qed.

End CacheFacts.

(** C1, as the code has it.  After [set(key, d, ttl)] with [ttl > 0] at
    time [t0], and nothing else touching the store, a [get(key)] at
    [t0 + t] returns [d] and leaves the store alone whenever [t <= ttl];
    the boundary [t = ttl] is still a hit, because the test is
    [Date.now() > expiresAt].  For every [t > ttl] the read returns [null]
    and the entry is gone afterwards. *)
Theorem ttl_expiry (c : APICache) (key : string) (d : value) (ttl t0 t : Z) :
  0 < ttl ->
  let c1 := Cache.set key d (Some ttl) t0 c in
  (t <= ttl -> Cache.get key (t0 + t) c1 = (d, c1)) /\
  (ttl < t ->
     fst (Cache.get key (t0 + t) c1) = VNull /\
     Cache.entry key (snd (Cache.get key (t0 + t) c1)) = None).
Proof.
  intros Hpos c1.
  assert (Hentry : Cache.entry key c1 =
            Some {| data := d; timestamp := t0; expiresAt := t0 + ttl |}).
  { unfold c1. rewrite CacheFacts.entry_set_same. simpl.
    destruct (ttl =? 0) eqn:E; [apply Z.eqb_eq in E; lia | reflexivity]. }
  split; intros Ht.
  - rewrite (CacheFacts.get_fresh _ _ _ _ Hentry); simpl; [reflexivity | lia].
  - rewrite (CacheFacts.get_expired _ _ _ _ Hentry); simpl; [|lia].
    split; [reflexivity|].
    rewrite CacheFacts.entry_delete. now rewrite String.eqb_refl.
Qed.

Lemma ttl_expiry_witness :
  let c1 := Cache.set "k" (VNum 1) (Some 1000) 0 (Cache.new None) in
  Cache.get "k" (0 + 500) c1 = (VNum 1, c1) /\
  Cache.get "k" (0 + 1000) c1 = (VNum 1, c1) /\
  fst (Cache.get "k" (0 + 1001) c1) = VNull.
Proof.
  intros c1. split; [|split].
  - apply (ttl_expiry (Cache.new None) "k" (VNum 1) 1000 0 500); lia.
  - apply (ttl_expiry (Cache.new None) "k" (VNum 1) 1000 0 1000); lia.
  - apply (ttl_expiry (Cache.new None) "k" (VNum 1) 1000 0 1001); lia.
Defined.

(** C1 as stated fails on the boundary: a read exactly [ttl] milliseconds
    after the write still returns the stored value. *)
Lemma ttl_expiry_boundary_counterexample :
  Cache.get "k" (0 + 1000)
    (Cache.set "k" (VNum 1) (Some 1000) 0 (Cache.new None))
  = (VNum 1, Cache.set "k" (VNum 1) (Some 1000) 0 (Cache.new None)) /\
  fst (Cache.get "k" (0 + 1000)
         (Cache.set "k" (VNum 1) (Some 1000) 0 (Cache.new None))) <> VNull.
Proof. split; [reflexivity | discriminate]. Qed.

(** C3, as the code has it.  [set] is total and leaves under [key] the
    entry [{data, timestamp: now, expiresAt: now + (ttl || defaultTTL)}],
    whatever was stored before: a supplied TTL other than [0] is used, and
    a [ttl] that is absent or [0] selects [defaultTTL].  Outside [ttl = 0]
    this is the [ttl ?? defaultTTL] of the specification.  A second [set]
    of the same key replaces the value and counts the expiry from the
    second write; entries under other keys are not touched. *)
Theorem set_stores_entry (c : APICache) (key : string) (d : value)
    (ttl : option Z) (now : Z) :
  Cache.entry key (Cache.set key d ttl now c) =
    Some {| data := d; timestamp := now;
            expiresAt := now + num_or ttl (defaultTTL c) |} /\
  (forall n, ttl = Some n -> n <> 0 ->
     num_or ttl (defaultTTL c) = n) /\
  (ttl = None \/ ttl = Some 0 -> num_or ttl (defaultTTL c) = defaultTTL c) /\
  (ttl <> Some 0 ->
     num_or ttl (defaultTTL c) = num_nullish ttl (defaultTTL c)) /\
  (forall d0 ttl0 now0,
     Cache.entry key (Cache.set key d ttl now (Cache.set key d0 ttl0 now0 c)) =
       Some {| data := d; timestamp := now;
               expiresAt := now + num_or ttl (defaultTTL c) |}) /\
  (forall key', key' <> key ->
     Cache.entry key' (Cache.set key d ttl now c) = Cache.entry key' c).
Proof.
  repeat split.
  - apply CacheFacts.entry_set_same.
  - intros n -> Hn; simpl.
    destruct (n =? 0) eqn:E; [apply Z.eqb_eq in E; contradiction | reflexivity].
  - intros [-> | ->]; reflexivity.
  - destruct ttl as [n|]; [|reflexivity]. intros Hn; simpl.
    destruct (n =? 0) eqn:E; [|reflexivity].
    apply Z.eqb_eq in E. congruence.
  - intros d0 ttl0 now0. now rewrite CacheFacts.entry_set_same.
  - intros key' Hne. now apply CacheFacts.entry_set_other.
Qed.

Lemma set_stores_entry_witness :
  Cache.entry "k"
    (Cache.set "k" (VNum 2) (Some 50) 7000
       (Cache.set "k" (VNum 1) None 0 (Cache.new None))) =
    Some {| data := VNum 2; timestamp := 7000; expiresAt := 7050 |} /\
  num_or (Some 50) 300000 = 50 /\
  num_or (Some 0) 300000 = 300000.
Proof.
  pose proof (set_stores_entry (Cache.new None) "k" (VNum 2) (Some 50) 7000)
    as (_ & Hn & _ & _ & Htwice & _).
  pose proof (set_stores_entry (Cache.new None) "k" (VNum 2) (Some 0) 7000)
    as (_ & _ & Hz & _).
  split; [|split].
  - apply (Htwice (VNum 1) None 0).
  - apply (Hn 50); [reflexivity | discriminate].
  - apply Hz. now right.
Defined.

(** C3 as stated fails for [ttl = 0]: the entry expires [defaultTTL]
    milliseconds after the write, not [0] milliseconds after it as
    [ttl ?? defaultTTL] would have it. *)
Lemma set_ttl_zero_counterexample :
  let c := Cache.set "k" (VNum 1) (Some 0) 100 (Cache.new None) in
  option_map expiresAt (Cache.entry "k" c) = Some 300100 /\
  option_map expiresAt (Cache.entry "k" c) <>
    Some (100 + num_nullish (Some 0) (defaultTTL (Cache.new None))).
Proof. split; [reflexivity | discriminate]. Qed.

(** C7.  When the entry under [key] is expired at the time of the read,
    [get(key)] returns [null] and removes the entry: [getStats()] called
    afterwards lists the keys it listed before, in the same order, without
    [key], and the entries under the other keys are what they were. *)
Theorem get_purges_expired (c : APICache) (key : string) (now : Z)
    (item : CacheItem) :
  Cache.entry key c = Some item ->
  expiresAt item < now ->
  let c' := snd (Cache.get key now c) in
  fst (Cache.get key now c) = VNull /\
  ~ In key (Cache.stats_keys (Cache.getStats c')) /\
  Cache.stats_keys (Cache.getStats c') =
    filter (fun k => negb (String.eqb k key))
      (Cache.stats_keys (Cache.getStats c)) /\
  (forall key', key' <> key -> Cache.entry key' c' = Cache.entry key' c).
Proof.
  intros Hentry Hexp c'. unfold c'.
  rewrite (CacheFacts.get_expired _ _ _ _ Hentry Hexp); simpl.
  repeat split.
  - apply JsMapFacts.not_in_keys_delete.
  - apply JsMapFacts.keys_delete.
  - intros key' Hne. rewrite CacheFacts.entry_delete.
    apply String.eqb_neq in Hne. now rewrite Hne.
Qed.

Lemma get_purges_expired_witness :
  let c := Cache.set "b" (VNum 2) None 0
             (Cache.set "a" (VNum 1) (Some 10) 0 (Cache.new None)) in
  let c' := snd (Cache.get "a" 11 c) in
  fst (Cache.get "a" 11 c) = VNull /\
  ~ In "a" (Cache.stats_keys (Cache.getStats c')) /\
  Cache.stats_keys (Cache.getStats c') =
    filter (fun k => negb (String.eqb k "a"))
      (Cache.stats_keys (Cache.getStats c)) /\
  (forall key', key' <> "a" -> Cache.entry key' c' = Cache.entry key' c).
Proof.
  intros c.
  apply (get_purges_expired c "a" 11
           {| data := VNum 1; timestamp := 0; expiresAt := 10 |}).
  - reflexivity.
  - simpl; lia.
Defined.

(** C8.  [has(key)] is [true] exactly when [get(key)], called at the same
    moment on the same store, returns something other than [null], and it
    leaves the store as that [get] does.  So it is [true] exactly when the
    key holds an entry that is not expired and whose value is not [null];
    a key that is present with an expired entry gives [false]. *)
Theorem has_iff_get (c : APICache) (key : string) (now : Z) :
  (fst (Cache.has key now c) = true <-> fst (Cache.get key now c) <> VNull) /\
  snd (Cache.has key now c) = snd (Cache.get key now c) /\
  (fst (Cache.has key now c) = true <->
     exists item, Cache.entry key c = Some item /\
                  now <= expiresAt item /\ data item <> VNull) /\
  (forall item, Cache.entry key c = Some item -> expiresAt item < now ->
     fst (Cache.has key now c) = false).
Proof.
  assert (Hnn : forall v, not_null v = true <-> v <> VNull).
  { intros v; destruct v; simpl; split; congruence. }
  unfold Cache.has.
  destruct (Cache.get key now c) as [v c'] eqn:G; simpl.
  repeat split; try apply Hnn.
  - intros Hv. apply Hnn in Hv.
    destruct (Cache.entry key c) as [item|] eqn:E.
    + destruct (Z_le_gt_dec now (expiresAt item)) as [Hle|Hgt].
      * rewrite (CacheFacts.get_fresh _ _ _ _ E Hle) in G.
        exists item. repeat split; [assumption | congruence].
      * rewrite (CacheFacts.get_expired _ now _ _ E) in G by lia. congruence.
    + rewrite (CacheFacts.get_absent _ _ _ E) in G. congruence.
  - intros (item & E & Hle & Hd). apply Hnn.
    rewrite (CacheFacts.get_fresh _ _ _ _ E Hle) in G. congruence.
  - intros item E Hexp.
    rewrite (CacheFacts.get_expired _ _ _ _ E Hexp) in G.
    injection G as <- _. reflexivity.
Qed.

Lemma has_iff_get_witness :
  let c := Cache.set "a" (VNum 1) (Some 10) 0 (Cache.new None) in
  fst (Cache.has "a" 10 c) = true /\ fst (Cache.has "a" 11 c) = false.
Proof.
  intros c. split.
  - destruct (has_iff_get c "a" 10) as (Hiff & _).
    apply Hiff. vm_compute. discriminate.
  - destruct (has_iff_get c "a" 11) as (_ & _ & _ & Hexp).
    apply (Hexp {| data := VNum 1; timestamp := 0; expiresAt := 10 |});
      [reflexivity | simpl; lia].
Defined.

(** C10.  [has(key)] on a key whose entry is expired answers [false] and
    deletes the entry, as [delete(key)] would: the key holds nothing
    afterwards and [size()] is one less than before. *)
Theorem has_purges_expired (c : APICache) (key : string) (now : Z)
    (item : CacheItem) :
  JsMap.wf (cache c) ->
  Cache.entry key c = Some item ->
  expiresAt item < now ->
  Cache.has key now c = (false, Cache.delete key c) /\
  Cache.entry key (snd (Cache.has key now c)) = None /\
  S (Cache.size (snd (Cache.has key now c))) = Cache.size c.
Proof.
  intros Hwf Hentry Hexp. unfold Cache.has.
  rewrite (CacheFacts.get_expired _ _ _ _ Hentry Hexp); simpl.
  repeat split.
  - rewrite CacheFacts.entry_delete. now rewrite String.eqb_refl.
  - apply (JsMapFacts.size_delete _ key item); assumption.
Qed.

Lemma has_purges_expired_witness :
  let c := Cache.set "b" (VNum 2) None 0
             (Cache.set "a" (VNum 1) (Some 10) 0 (Cache.new None)) in
  Cache.has "a" 11 c = (false, Cache.delete "a" c) /\
  Cache.entry "a" (snd (Cache.has "a" 11 c)) = None /\
  S (Cache.size (snd (Cache.has "a" 11 c))) = Cache.size c.
Proof.
  intros c.
  apply (has_purges_expired c "a" 11
           {| data := VNum 1; timestamp := 0; expiresAt := 10 |}).
  - repeat constructor; simpl; intuition discriminate.
  - reflexivity.
  - simpl; lia.
Defined.

(** ** fetchWithCache *)

Module FetchFacts.

Lemma sent_app w w' req :
  requests w' = (requests w ++ [req])%list -> sent w w' = 1.
Proof.
  unfold sent. intros ->. rewrite length_app; simpl. lia.
Qed.

(** A call that goes to the network: one request more in the log, the
    answer of the exchange, and a write only for a parsed GET response,
    made when the body has been read. *)
Lemma fetchFromAPI_run url options cacheTTL w :
  let e := next_exchange w (url, options) in
  let w' := snd (fetchFromAPI url options cacheTTL w) in
  fst (fetchFromAPI url options cacheTTL w) = answer e /\
  requests w' = (requests w ++ [(url, options)])%list /\
  server w' = server w /\
  apiCache w' =
    match answer e with
    | Return v =>
        if String.eqb (methodOf options) "GET"
        then Cache.set (cacheKeyOf options url) v cacheTTL (clock w')
               (apiCache w)
        else apiCache w
    | Throw _ => apiCache w
    end.
Proof.
  unfold next_exchange, fetchFromAPI, bind, fetch, response_json, answer,
    throw, ret, apiCache_set.
  destruct (server w (List.length (requests w)) (url, options)) as [d|d r];
    simpl; [repeat split|].
  destruct (ok r); simpl; [|repeat split].
  destruct (json r) as [v|]; simpl; [|repeat split].
  destruct (String.eqb (methodOf options) "GET"); simpl; repeat split.
Qed.

(** A GET call whose lookup answers [null] continues on the network, from
    the store that the lookup left. *)
Lemma fetchWithCache_miss url options cacheTTL w :
  methodOf options = "GET"%string ->
  fst (Cache.get (cacheKeyOf options url) (clock w) (apiCache w)) = VNull ->
  fetchWithCache url options cacheTTL w =
  fetchFromAPI url options cacheTTL
    (with_apiCache w
       (snd (Cache.get (cacheKeyOf options url) (clock w) (apiCache w)))).
Proof.
  intros Hget Hnull. unfold fetchWithCache; cbv zeta.
  destruct (String.eqb_spec (methodOf options) "GET") as [_|Hne];
    [|contradiction].
  unfold bind, apiCache_get.
  destruct (Cache.get (cacheKeyOf options url) (clock w) (apiCache w))
    as [v c]; simpl in *.
  now subst v.
Qed.

(** A GET call whose lookup finds a value returns it and sends nothing. *)
Lemma fetchWithCache_hit url options cacheTTL w :
  methodOf options = "GET"%string ->
  fst (Cache.get (cacheKeyOf options url) (clock w) (apiCache w)) <> VNull ->
  fetchWithCache url options cacheTTL w =
  (Return (fst (Cache.get (cacheKeyOf options url) (clock w) (apiCache w))),
   with_apiCache w
     (snd (Cache.get (cacheKeyOf options url) (clock w) (apiCache w)))).
Proof.
  intros Hget Hnn. unfold fetchWithCache; cbv zeta.
  destruct (String.eqb_spec (methodOf options) "GET") as [_|Hne];
    [|contradiction].
  unfold bind, apiCache_get.
  destruct (Cache.get (cacheKeyOf options url) (clock w) (apiCache w))
    as [v c]; simpl in *.
  destruct v; simpl; try reflexivity. now elim Hnn.
Qed.

(** A non-GET call is the network call. *)
Lemma fetchWithCache_bypass url options cacheTTL w :
  methodOf options <> "GET"%string ->
  fetchWithCache url options cacheTTL w = fetchFromAPI url options cacheTTL w.
Proof.
  intros Hne. unfold fetchWithCache; cbv zeta.
  now destruct (String.eqb_spec (methodOf options) "GET").
Qed.

End FetchFacts.

(** C5.  A call whose method ([options?.method || 'GET']) is not ["GET"]
    sends its request whatever the store holds, hands the caller the
    answer of that exchange and nothing from the store, and leaves the
    store as it was. *)
Theorem non_get_bypasses_cache (w : World) (url : string)
    (options : option RequestInit) (cacheTTL : option Z) :
  methodOf options <> "GET"%string ->
  let run := fetchWithCache url options cacheTTL w in
  requests (snd run) = (requests w ++ [(url, options)])%list /\
  sent w (snd run) = 1 /\
  fst run = answer (next_exchange w (url, options)) /\
  apiCache (snd run) = apiCache w.
Proof.
  intros Hne run. unfold run.
  rewrite (FetchFacts.fetchWithCache_bypass _ _ _ _ Hne).
  destruct (FetchFacts.fetchFromAPI_run url options cacheTTL w)
    as (Hres & Hreq & _ & Hcache).
  split; [assumption|]. split; [now apply FetchFacts.sent_app with (url, options)|].
  split; [assumption|].
  rewrite Hcache. apply String.eqb_neq in Hne. rewrite Hne.
  now destruct (answer _).
Qed.

Lemma non_get_bypasses_cache_witness :
  let post := Some {| init_method := Some "POST"%string;
                      init_body := Some "{}"%string |} in
  let srv := fun (_ : nat) (_ : Request) =>
    Resolves 5 {| ok := true; status := 201; json := Some (VNum 7);
                  json_delay := 1 |} in
  let w := {| apiCache := Cache.set "POST:https://a/x" (VNum 1) None 0
                            (Cache.new None);
              clock := 10; server := srv; requests := [] |} in
  let run := fetchWithCache "https://a/x" post None w in
  requests (snd run) = [("https://a/x"%string, post)] /\
  sent w (snd run) = 1 /\
  fst run = Return (VNum 7) /\
  apiCache (snd run) = apiCache w.
Proof.
  intros post srv w.
  apply (non_get_bypasses_cache w "https://a/x" post None).
  vm_compute. discriminate.
Defined.

(** C9.  While a key holds an unexpired entry whose value is [null], the
    entry cannot be told from a miss: [get] returns [null], [has] returns
    [false], neither touches the store, and a [fetchWithCache] call whose
    cache key it is sends a request.  The entry is in the store all the
    same: [getStats] lists the key, and [size] counts it. *)
Theorem null_value_is_a_miss (c : APICache) (key : string) (now : Z)
    (item : CacheItem) :
  Cache.entry key c = Some item ->
  data item = VNull ->
  now <= expiresAt item ->
  Cache.get key now c = (VNull, c) /\
  Cache.has key now c = (false, c) /\
  (forall w url options cacheTTL,
     apiCache w = c -> clock w = now ->
     methodOf options = "GET"%string -> cacheKeyOf options url = key ->
     requests (snd (fetchWithCache url options cacheTTL w)) =
       (requests w ++ [(url, options)])%list /\
     sent w (snd (fetchWithCache url options cacheTTL w)) = 1) /\
  In key (Cache.stats_keys (Cache.getStats c)) /\
  (0 < Cache.size c)%nat /\
  (JsMap.wf (cache c) -> Cache.size c = S (Cache.size (Cache.delete key c))).
Proof.
  intros Hentry Hnull Hfresh.
  assert (Hget : Cache.get key now c = (VNull, c)).
  { rewrite (CacheFacts.get_fresh _ _ _ _ Hentry Hfresh). now rewrite Hnull. }
  assert (Hin : In key (Cache.stats_keys (Cache.getStats c))).
  { simpl. apply JsMapFacts.in_keys_get. unfold Cache.entry in Hentry.
    congruence. }
  split; [assumption|]. split; [unfold Cache.has; now rewrite Hget|].
  split; [|split; [assumption|split]].
  - intros w url options cacheTTL Hc Hclock Hmeth Hkey.
    assert (Hreq : requests (snd (fetchWithCache url options cacheTTL w)) =
                   (requests w ++ [(url, options)])%list).
    { rewrite FetchFacts.fetchWithCache_miss;
        [|assumption | now rewrite Hkey, Hc, Hclock, Hget].
      now destruct (FetchFacts.fetchFromAPI_run url options cacheTTL
                      (with_apiCache w
                         (snd (Cache.get (cacheKeyOf options url) (clock w)
                                 (apiCache w)))))
        as (_ & Hreq & _). }
    split; [assumption | now apply FetchFacts.sent_app with (url, options)].
  - unfold Cache.size, JsMap.size. simpl in Hin. unfold JsMap.keys in Hin.
    destruct (cache c); [contradiction | simpl; lia].
  - intros Hwf. symmetry.
    apply (JsMapFacts.size_delete _ key item); assumption.
Qed.

Lemma null_value_is_a_miss_witness :
  let c := Cache.set "GET:https://a/x" VNull (Some 1000) 0 (Cache.new None) in
  let srv := fun (_ : nat) (_ : Request) =>
    Resolves 5 {| ok := true; status := 200; json := Some VNull;
                  json_delay := 1 |} in
  let w := {| apiCache := c; clock := 10; server := srv; requests := [] |} in
  Cache.get "GET:https://a/x" 10 c = (VNull, c) /\
  Cache.has "GET:https://a/x" 10 c = (false, c) /\
  sent w (snd (fetchWithCache "https://a/x" None None w)) = 1 /\
  Cache.size c = 1%nat.
Proof.
  intros c srv w.
  destruct (null_value_is_a_miss c "GET:https://a/x" 10
              {| data := VNull; timestamp := 0; expiresAt := 1000 |})
    as (Hget & Hhas & Hfetch & _ & _ & Hsize);
    [reflexivity | reflexivity | simpl; lia |].
  split; [assumption|]. split; [assumption|]. split.
  - apply (Hfetch w "https://a/x"%string None None); reflexivity.
  - apply Hsize. repeat constructor; simpl; tauto.
Defined.

(** C2, as the code has it.  When the request of a [fetchWithCache] call
    is answered with a response whose [ok] is false, the call throws the
    error that carries the status and writes nothing: for a non-GET call
    the store is the one before the call, and for a GET call it is the one
    that the call's own lookup left, which is the store before the call
    except that an expired entry under the cache key has been purged.
    After a failed GET call a [get] of the cache key returns [null] at any
    later time, and the next [fetchWithCache] for the same URL and options
    sends a new request. *)
Theorem failed_fetch_not_cached (w : World) (url : string)
    (options : option RequestInit) (cacheTTL : option Z) (d : Z)
    (r : Response) :
  let key := cacheKeyOf options url in
  (methodOf options = "GET"%string ->
   fst (Cache.get key (clock w) (apiCache w)) = VNull) ->
  next_exchange w (url, options) = Resolves d r ->
  ok r = false ->
  let run := fetchWithCache url options cacheTTL w in
  let w' := snd run in
  fst run = Throw (HttpError (status r)) /\
  sent w w' = 1 /\
  apiCache w' =
    (if String.eqb (methodOf options) "GET"
     then snd (Cache.get key (clock w) (apiCache w)) else apiCache w) /\
  (apiCache w' = apiCache w \/ apiCache w' = Cache.delete key (apiCache w)) /\
  (forall k item, Cache.entry k (apiCache w') = Some item ->
                  Cache.entry k (apiCache w) = Some item) /\
  (methodOf options = "GET"%string ->
   forall now, fst (Cache.get key now (apiCache w')) = VNull) /\
  (forall dt cacheTTL',
     requests (snd (fetchWithCache url options cacheTTL'
                      (snd (elapse dt w')))) =
     (requests w' ++ [(url, options)])%list).
Proof.
  intros key Hmiss Hex Hok run w'.
  set (c0 := if String.eqb (methodOf options) "GET"
             then snd (Cache.get key (clock w) (apiCache w)) else apiCache w).
  assert (Hrun : run = fetchFromAPI url options cacheTTL (with_apiCache w c0)).
  { unfold run, c0. destruct (String.eqb_spec (methodOf options) "GET") as [E|E].
    - now apply FetchFacts.fetchWithCache_miss; [|apply Hmiss].
    - rewrite FetchFacts.fetchWithCache_bypass by assumption.
      now destruct w. }
  destruct (FetchFacts.fetchFromAPI_run url options cacheTTL (with_apiCache w c0))
    as (Hres & Hreq & Hsrv & Hcache).
  rewrite <- Hrun in Hres, Hreq, Hsrv, Hcache. fold w' in Hreq, Hsrv, Hcache.
  assert (Hans : answer (next_exchange (with_apiCache w c0) (url, options)) =
                 Throw (HttpError (status r))).
  { change (next_exchange (with_apiCache w c0) (url, options))
      with (next_exchange w (url, options)).
    rewrite Hex; simpl. now rewrite Hok. }
  rewrite Hans in Hres, Hcache. simpl in Hreq, Hcache.
  assert (Hstore : apiCache w' = apiCache w \/
                   apiCache w' = Cache.delete key (apiCache w)).
  { rewrite Hcache. unfold c0.
    destruct (String.eqb (methodOf options) "GET"); [|now left].
    apply CacheFacts.get_store. }
  split; [assumption|].
  split; [now apply FetchFacts.sent_app with (url, options)|].
  split; [assumption|]. split; [assumption|]. split; [|split].
  - intros k item. destruct Hstore as [-> | ->]; [trivial|].
    rewrite CacheFacts.entry_delete.
    destruct (String.eqb k key); [discriminate | trivial].
  - intros Hget now. rewrite Hcache. unfold c0.
    rewrite Hget; simpl String.eqb; cbv iota.
    apply CacheFacts.get_null_stays. now apply Hmiss.
  - intros dt cacheTTL'.
    destruct (String.eqb_spec (methodOf options) "GET") as [E|E].
    + rewrite FetchFacts.fetchWithCache_miss; [|assumption|].
      * now destruct (FetchFacts.fetchFromAPI_run url options cacheTTL'
            (with_apiCache (snd (elapse dt w'))
               (snd (Cache.get (cacheKeyOf options url)
                       (clock (snd (elapse dt w')))
                       (apiCache (snd (elapse dt w')))))))
          as (_ & Hreq' & _).
      * simpl. rewrite Hcache. unfold c0. cbv iota.
        apply CacheFacts.get_null_stays. now apply Hmiss.
    + rewrite FetchFacts.fetchWithCache_bypass by assumption.
      now destruct (FetchFacts.fetchFromAPI_run url options cacheTTL'
                      (snd (elapse dt w'))) as (_ & Hreq' & _).
Qed.

Lemma failed_fetch_not_cached_witness :
  let srv := fun (_ : nat) (_ : Request) =>
    Resolves 5 {| ok := false; status := 503; json := None;
                  json_delay := 0 |} in
  let w := {| apiCache := Cache.set "GET:https://b/z" (VNum 2) None 0
                            (Cache.new None);
              clock := 20; server := srv; requests := [] |} in
  let run := fetchWithCache "https://a/x" None None w in
  fst run = Throw (HttpError 503) /\
  sent w (snd run) = 1 /\
  apiCache (snd run) = apiCache w /\
  fst (Cache.get "GET:https://a/x" 25 (apiCache (snd run))) = VNull /\
  requests (snd (fetchWithCache "https://a/x" None None
                   (snd (elapse 0 (snd run))))) =
    [("https://a/x"%string, None); ("https://a/x"%string, None)].
Proof.
  intros srv w run.
  destruct (failed_fetch_not_cached w "https://a/x" None None 5
              {| ok := false; status := 503; json := None; json_delay := 0 |})
    as (Hres & Hsent & Hstore & _ & _ & Hget & Hnext);
    [reflexivity | reflexivity | reflexivity |].
  split; [exact Hres|]. split; [exact Hsent|]. split; [exact Hstore|].
  split; [apply Hget; reflexivity | apply (Hnext 0 None)].
Defined.

(** C2 as stated fails in two places.  A failed GET call does change the
    store when its key held an expired entry: the lookup that precedes the
    request purges it.  And after a failed non-GET call a [get] of its
    cache key returns whatever a direct [apiCache.set] has put there. *)
Lemma failed_fetch_counterexample :
  let srv := fun (_ : nat) (_ : Request) =>
    Resolves 5 {| ok := false; status := 500; json := None;
                  json_delay := 0 |} in
  let w := {| apiCache := Cache.set "GET:https://a/x" (VNum 1) (Some 10) 0
                            (Cache.new None);
              clock := 20; server := srv; requests := [] |} in
  let post := Some {| init_method := Some "POST"%string;
                      init_body := None |} in
  let wp := {| apiCache := Cache.set "POST:https://a/x" (VNum 1) None 0
                             (Cache.new None);
               clock := 20; server := srv; requests := [] |} in
  (fst (fetchWithCache "https://a/x" None None w) = Throw (HttpError 500) /\
   apiCache (snd (fetchWithCache "https://a/x" None None w)) = Cache.new None /\
   apiCache (snd (fetchWithCache "https://a/x" None None w)) <> apiCache w) /\
  (fst (fetchWithCache "https://a/x" post None wp) = Throw (HttpError 500) /\
   fst (Cache.get "POST:https://a/x" 25
          (apiCache (snd (fetchWithCache "https://a/x" post None wp))))
   = VNum 1).
Proof.
  intros srv w post wp.
  split; [split; [reflexivity | split; [reflexivity | vm_compute; discriminate]]
         | split; reflexivity].
Qed.

Lemma get_keeps_defaultTTL key now c :
  defaultTTL (snd (Cache.get key now c)) = defaultTTL c.
Proof.
  destruct (CacheFacts.get_store key now c) as [-> | ->]; reflexivity.
Qed.

(** C4, as the code has it.  Take a GET call that goes to the network and
    returns a value [v] other than [null], and a second call for the same
    URL and options whose lookup comes [dt] milliseconds after the first
    call has written its entry, with [dt] at most the TTL of that entry
    ([cacheTTL || defaultTTL]).  The second call sends nothing and returns
    [v], so the two calls together send exactly one request. *)
Theorem second_fetch_hits_cache (w : World) (url : string)
    (options : option RequestInit) (cacheTTL cacheTTL' : option Z)
    (dt : Z) (v : value) :
  methodOf options = "GET"%string ->
  let run1 := fetchWithCache url options cacheTTL w in
  fst run1 = Return v ->
  sent w (snd run1) = 1 ->
  v <> VNull ->
  dt <= num_or cacheTTL (defaultTTL (apiCache w)) ->
  let run2 :=
    fetchWithCache url options cacheTTL' (snd (elapse dt (snd run1))) in
  fst run2 = Return v /\
  requests (snd run2) = requests (snd run1) /\
  sent w (snd run2) = 1.
Proof.
  intros Hget run1 Hres Hsent Hv Hdt run2.
  set (key := cacheKeyOf options url).
  destruct (fst (Cache.get key (clock w) (apiCache w))) eqn:Hlook.
  2: {
    (* the first call missed *)
    assert (Hrun1 : run1 = fetchFromAPI url options cacheTTL
              (with_apiCache w (snd (Cache.get key (clock w) (apiCache w)))))
      by now apply FetchFacts.fetchWithCache_miss.
    destruct (FetchFacts.fetchFromAPI_run url options cacheTTL
                (with_apiCache w (snd (Cache.get key (clock w) (apiCache w)))))
      as (Hans & _ & _ & Hcache).
    rewrite <- Hrun1 in Hans, Hcache. rewrite <- Hans, Hres in Hcache.
    rewrite Hget in Hcache. simpl in Hcache. fold key in Hcache.
    set (w1 := snd run1) in *.
    assert (Hentry : Cache.entry key (apiCache (snd (elapse dt w1))) =
              Some {| data := v; timestamp := clock w1;
                      expiresAt := clock w1 +
                        num_or cacheTTL (defaultTTL (apiCache w)) |}).
    { simpl. rewrite Hcache, CacheFacts.entry_set_same.
      now rewrite get_keeps_defaultTTL. }
    assert (Hhit : Cache.get key (clock (snd (elapse dt w1)))
                     (apiCache (snd (elapse dt w1))) =
                   (v, apiCache (snd (elapse dt w1)))).
    { rewrite (CacheFacts.get_fresh _ _ _ _ Hentry); [reflexivity|].
      simpl. lia. }
    unfold run2. rewrite FetchFacts.fetchWithCache_hit; fold key;
      rewrite ?Hhit; simpl; try assumption.
    repeat split; assumption. }
  all: exfalso;
    assert (Hnn : fst (Cache.get key (clock w) (apiCache w)) <> VNull)
      by (rewrite Hlook; discriminate);
    unfold run1 in Hsent;
    rewrite (FetchFacts.fetchWithCache_hit _ _ cacheTTL _ Hget Hnn) in Hsent;
    unfold sent in Hsent; simpl in Hsent; lia.
Qed.

Lemma second_fetch_hits_cache_witness :
  let srv := fun (n : nat) (_ : Request) =>
    Resolves 30 {| ok := true; status := 200;
                   json := Some (VNum (Z.of_nat n)); json_delay := 2 |} in
  let w := boot 0 srv in
  let run1 := fetchWithCache "https://a/x" None (Some 1000) w in
  let run2 :=
    fetchWithCache "https://a/x" None None (snd (elapse 1000 (snd run1))) in
  fst run1 = Return (VNum 0) /\
  fst run2 = Return (VNum 0) /\
  requests (snd run2) = requests (snd run1) /\
  sent w (snd run2) = 1.
Proof.
  intros srv w run1 run2.
  split; [reflexivity|].
  apply (second_fetch_hits_cache w "https://a/x" None (Some 1000) None 1000
           (VNum 0)).
  - reflexivity.
  - reflexivity.
  - reflexivity.
  - discriminate.
  - simpl; lia.
Defined.

(** C4 as stated fails when the response body is the JSON [null]: the
    first call succeeds and stores [null], the lookup of the second call,
    made at once, reads that as a miss, and a second request goes out. *)
Lemma second_fetch_null_counterexample :
  let srv := fun (_ : nat) (_ : Request) =>
    Resolves 0 {| ok := true; status := 200; json := Some VNull;
                  json_delay := 0 |} in
  let w := boot 0 srv in
  let run1 := fetchWithCache "https://a/x" None None w in
  let run2 :=
    fetchWithCache "https://a/x" None None (snd (elapse 0 (snd run1))) in
  fst run1 = Return VNull /\
  sent w (snd run1) = 1 /\
  Cache.entry "GET:https://a/x" (apiCache (snd run1)) =
    Some {| data := VNull; timestamp := 0; expiresAt := 300000 |} /\
  sent w (snd run2) = 2 /\
  sent w (snd run2) <> 1.
Proof.
  intros srv w run1 run2.
  repeat (split; [reflexivity|]). vm_compute. discriminate.
Qed.

(** ** clearCacheByPattern *)

Module ClearFacts.

(** [forEach] over deletions never throws and deletes the keys in turn. *)
Lemma forEach_delete ks w :
  fst (forEach ks apiCache_delete w) = Return tt /\
  apiCache (snd (forEach ks apiCache_delete w)) =
    fold_left (fun c k => Cache.delete k c) ks (apiCache w) /\
  clock (snd (forEach ks apiCache_delete w)) = clock w /\
  requests (snd (forEach ks apiCache_delete w)) = requests w.
Proof.
  revert w; induction ks as [|k ks IH]; intros w; simpl.
  - repeat split.
  - unfold bind, apiCache_delete at 1 3 5 7.
    destruct (IH (with_apiCache w (Cache.delete k (apiCache w))))
      as (H1 & H2 & H3 & H4).
    repeat split; assumption.
Qed.

Lemma entry_fold_delete ks k c :
  Cache.entry k (fold_left (fun c k => Cache.delete k c) ks c) =
  if existsb (String.eqb k) ks then None else Cache.entry k c.
Proof.
  revert c; induction ks as [|k0 ks IH]; intros c; simpl; [reflexivity|].
  rewrite IH, CacheFacts.entry_delete.
  destruct (String.eqb k k0); simpl; [|reflexivity].
  now destruct (existsb _ ks).
Qed.

Lemma keys_fold_delete ks c :
  JsMap.keys (cache (fold_left (fun c k => Cache.delete k c) ks c)) =
  filter (fun k => negb (existsb (String.eqb k) ks)) (JsMap.keys (cache c)).
Proof.
  revert c; induction ks as [|k0 ks IH]; intros c; simpl.
  - induction (JsMap.keys (cache c)) as [|k l IHl]; simpl; congruence.
  - rewrite IH; simpl. rewrite JsMapFacts.keys_delete.
    induction (JsMap.keys (cache c)) as [|k l IHl]; simpl; [reflexivity|].
    destruct (String.eqb k k0); simpl; [assumption|].
    destruct (existsb (String.eqb k) ks); simpl; congruence.
Qed.

(** Among the keys of the list, the selected ones are those that match. *)
Lemma existsb_filter (f : string -> bool) (l : list string) (k : string) :
  existsb (String.eqb k) (filter f l) = f k && existsb (String.eqb k) l.
Proof.
  induction l as [|x l IH]; simpl; [now rewrite andb_false_r|].
  destruct (f x) eqn:Fx; simpl; rewrite IH.
  - destruct (String.eqb_spec k x) as [->|Hne]; simpl.
    + now rewrite Fx.
    + reflexivity.
  - destruct (String.eqb_spec k x) as [->|Hne]; simpl.
    + now rewrite Fx.
    + reflexivity.
Qed.

Lemma existsb_eqb_in (l : list string) (k : string) :
  existsb (String.eqb k) l = true <-> In k l.
Proof.
  rewrite existsb_exists. split.
  - intros (x & Hin & Heq). apply String.eqb_eq in Heq. now subst.
  - intros Hin. exists k. split; [assumption | apply String.eqb_refl].
Qed.

Lemma filter_none (f : string -> bool) (l : list string) :
  (forall k, In k l -> f k = false) -> filter f l = [].
Proof.
  induction l as [|x l IH]; simpl; [reflexivity|]. intros Hall.
  rewrite (Hall x) by now left. apply IH. intros k Hk. apply Hall. now right.
Qed.

End ClearFacts.

(** C6.  [clearCacheByPattern(pattern)] never throws, sends nothing, and
    afterwards a key holds an entry exactly when it held one before and
    [pattern] is not a substring of it; that entry is the one it held.
    The keys that remain keep their order.  When no key contains the
    pattern the world is what it was.  With the keys
    ["GET:https://a/x"], ["GET:https://a/y"], ["GET:https://b/z"] in the
    store, the pattern ["/a/"] leaves exactly ["GET:https://b/z"]. *)
Theorem clear_by_pattern_selective (pattern : string) (w : World) :
  let run := clearCacheByPattern pattern w in
  let contains (k : string) := exists a b, k = (a ++ pattern ++ b)%string in
  fst run = Return tt /\
  requests (snd run) = requests w /\
  (forall k, contains k -> Cache.entry k (apiCache (snd run)) = None) /\
  (forall k, ~ contains k ->
     Cache.entry k (apiCache (snd run)) = Cache.entry k (apiCache w)) /\
  (forall k, In k (Cache.stats_keys (Cache.getStats (apiCache (snd run)))) <->
     In k (Cache.stats_keys (Cache.getStats (apiCache w))) /\ ~ contains k) /\
  Cache.stats_keys (Cache.getStats (apiCache (snd run))) =
    filter (fun k => negb (includes k pattern))
      (Cache.stats_keys (Cache.getStats (apiCache w))) /\
  ((forall k, In k (Cache.stats_keys (Cache.getStats (apiCache w))) ->
      ~ contains k) -> run = (Return tt, w)) /\
  (let c3 := Cache.set "GET:https://b/z" (VNum 3) None 2
               (Cache.set "GET:https://a/y" (VNum 2) None 1
                  (Cache.set "GET:https://a/x" (VNum 1) None 0
                     (Cache.new None))) in
   Cache.getStats
     (apiCache (snd (clearCacheByPattern "/a/" (with_apiCache w c3)))) =
   {| Cache.stats_size := 1; Cache.stats_keys := ["GET:https://b/z"%string] |}).
Proof.
  intros run contains.
  set (keys := JsMap.keys (cache (apiCache w))).
  set (matched := filter (fun key => includes key pattern) keys).
  assert (Hrun : run = forEach matched apiCache_delete w) by reflexivity.
  destruct (ClearFacts.forEach_delete matched w) as (Hres & Hcache & _ & Hreq).
  rewrite <- Hrun in Hres, Hcache, Hreq.
  assert (Hinc : forall k, includes k pattern = true <-> contains k)
    by (intros k; apply includes_spec).
  assert (Hkeys : JsMap.keys (cache (apiCache (snd run))) =
                  filter (fun k => negb (includes k pattern)) keys).
  { rewrite Hcache, ClearFacts.keys_fold_delete. fold keys.
    apply filter_ext_in. intros k Hin. unfold matched.
    rewrite ClearFacts.existsb_filter.
    apply ClearFacts.existsb_eqb_in in Hin. rewrite Hin.
    now rewrite andb_true_r. }
  assert (Hentry : forall k, Cache.entry k (apiCache (snd run)) =
            if includes k pattern then None else Cache.entry k (apiCache w)).
  { intros k. rewrite Hcache, ClearFacts.entry_fold_delete. unfold matched.
    rewrite ClearFacts.existsb_filter.
    destruct (includes k pattern); simpl; [|reflexivity].
    destruct (existsb (String.eqb k) keys) eqn:E; [reflexivity|].
    destruct (Cache.entry k (apiCache w)) eqn:G; [|reflexivity].
    assert (In k keys) by (apply JsMapFacts.in_keys_get;
                           unfold Cache.entry in G; congruence).
    apply ClearFacts.existsb_eqb_in in H. congruence. }
  split; [assumption|]. split; [assumption|].
  split; [|split; [|split; [|split; [|split]]]].
  - intros k Hk. apply Hinc in Hk. now rewrite Hentry, Hk.
  - intros k Hk. rewrite Hentry.
    destruct (includes k pattern) eqn:E; [|reflexivity].
    apply Hinc in E. contradiction.
  - intros k. simpl. rewrite Hkeys, filter_In. fold keys.
    rewrite negb_true_iff, <- not_true_iff_false, Hinc. reflexivity.
  - exact Hkeys.
  - intros Hnone. rewrite Hrun.
    assert (matched = []) as ->; [|reflexivity].
    apply ClearFacts.filter_none. intros k Hin.
    apply not_true_iff_false. rewrite Hinc. now apply Hnone.
  - reflexivity.
Qed.

Lemma clear_by_pattern_selective_witness :
  let c3 := Cache.set "GET:https://b/z" (VNum 3) None 2
              (Cache.set "GET:https://a/y" (VNum 2) None 1
                 (Cache.set "GET:https://a/x" (VNum 1) None 0
                    (Cache.new None))) in
  let w := {| apiCache := c3; clock := 5;
              server := fun _ _ => Rejects 0; requests := [] |} in
  let w' := snd (clearCacheByPattern "/a/" w) in
  Cache.entry "GET:https://a/x" (apiCache w') = None /\
  Cache.entry "GET:https://a/y" (apiCache w') = None /\
  Cache.entry "GET:https://b/z" (apiCache w') =
    Some {| data := VNum 3; timestamp := 2; expiresAt := 300002 |} /\
  clearCacheByPattern "/c/" w = (Return tt, w).
Proof.
  intros c3 w w'.
  destruct (clear_by_pattern_selective "/a/" w)
    as (_ & _ & Hgone & Hkept & _).
  destruct (clear_by_pattern_selective "/c/" w)
    as (_ & _ & _ & _ & _ & _ & Hnoop & _).
  split; [|split; [|split]].
  - apply Hgone. now exists "GET:https:/"%string, "x"%string.
  - apply Hgone. now exists "GET:https:/"%string, "y"%string.
  - unfold w'. rewrite Hkept; [reflexivity|].
    intros H. apply includes_spec in H. vm_compute in H. discriminate.
  - apply Hnoop. intros k Hin H. apply includes_spec in H.
    destruct Hin as [<- | [<- | [<- | []]]]; vm_compute in H; discriminate.
Defined.

(** * Further properties of the class *)

(** ** More on the Map *)

Module JsMapMore.
Section WithValue.
Variable V : Type.
Implicit Types (m : JsMap.t V) (k : string) (v : V).

Lemma delete_filter k m :
  JsMap.delete k m = filter (fun e => negb (String.eqb (fst e) k)) m.
Proof.
  induction m as [|[k' v'] m IH]; simpl; [reflexivity|].
  destruct (String.eqb k' k); simpl; now rewrite IH.
Qed.

Lemma fold_delete_filter ks m :
  fold_left (fun m k => JsMap.delete k m) ks m =
  filter (fun e => negb (existsb (String.eqb (fst e)) ks)) m.
Proof.
  revert m; induction ks as [|k ks IH]; intros m; simpl.
  - induction m as [|e m IHm]; simpl; congruence.
  - rewrite IH, delete_filter.
    induction m as [|e m IHm]; simpl; [reflexivity|].
    destruct (String.eqb (fst e) k); simpl; [assumption|].
    destruct (existsb (String.eqb (fst e)) ks); simpl; congruence.
Qed.

Lemma get_in k v m : JsMap.get k m = Some v -> In (k, v) m.
Proof.
  induction m as [|[k' v'] m IH]; simpl; [discriminate|].
  destruct (String.eqb_spec k' k) as [->|Hne].
  - intros [= ->]. now left.
  - intros H. right. now apply IH.
Qed.

Lemma in_get k v m : JsMap.wf m -> In (k, v) m -> JsMap.get k m = Some v.
Proof.
  unfold JsMap.wf, JsMap.keys.
  induction m as [|[k' v'] m IH]; simpl; [contradiction|].
  intros Hnd Hin. inversion Hnd as [|? ? Hnotin Hnd']; subst.
  destruct Hin as [[= -> ->] | Hin].
  - now rewrite String.eqb_refl.
  - destruct (String.eqb_spec k' k) as [->|Hne]; [|now apply IH].
    elim Hnotin. apply in_map_iff. now exists (k, v).
Qed.

Lemma wf_filter (P : string * V -> bool) m :
  JsMap.wf m -> JsMap.wf (filter P m).
Proof.
  unfold JsMap.wf, JsMap.keys.
  induction m as [|e m IH]; simpl; [trivial|].
  intros Hnd. inversion Hnd as [|? ? Hnotin Hnd']; subst.
  destruct (P e); simpl; [|now apply IH].
  constructor; [|now apply IH].
  intros Hin. apply Hnotin. apply in_map_iff in Hin as (e' & He' & Hin).
  apply filter_In in Hin as [Hin _]. apply in_map_iff. now exists e'.
Qed.

Lemma get_filter (P : string * V -> bool) k m :
  JsMap.wf m ->
  JsMap.get k (filter P m) =
  match JsMap.get k m with
  | Some v => if P (k, v) then Some v else None
  | None => None
  end.
Proof.
  intros Hwf. destruct (JsMap.get k m) as [v|] eqn:G.
  - destruct (P (k, v)) eqn:Pv.
    + apply in_get; [now apply wf_filter|].
      apply filter_In. split; [now apply get_in | assumption].
    + destruct (JsMap.get k (filter P m)) as [v'|] eqn:G'; [|reflexivity].
      apply get_in in G'. apply filter_In in G' as [Hin Pv'].
      apply (in_get _ _ _ Hwf) in Hin. congruence.
  - destruct (JsMap.get k (filter P m)) as [v'|] eqn:G'; [|reflexivity].
    apply get_in in G'. apply filter_In in G' as [Hin _].
    apply (in_get _ _ _ Hwf) in Hin. congruence.
Qed.

Lemma keys_nil m : JsMap.keys m = [] -> m = [].
Proof. destruct m; [reflexivity | discriminate]. Qed.

End WithValue.
End JsMapMore.

Module ExpiryFacts.

(** The loop of [clearExpired] deletes, in turn, the keys of the entries
    it finds expired. *)
Lemma loop_as_deletes now (l m : JsMap.t CacheItem) :
  fold_left
    (fun (m : JsMap.t CacheItem) (e : string * CacheItem) =>
       let (key, item) := e in
       if now >? expiresAt item then JsMap.delete key m else m) l m =
  fold_left (fun m k => JsMap.delete k m)
    (map fst (filter (fun e => now >? expiresAt (snd e)) l)) m.
Proof.
  revert m; induction l as [|[k item] l IH]; intros m; simpl; [reflexivity|].
  destruct (now >? expiresAt item); simpl; apply IH.
Qed.

(** On a map that holds each key once, what is left is what is not
    expired, in its order. *)
Lemma clearExpired_filter now c :
  JsMap.wf (cache c) ->
  cache (Cache.clearExpired now c) =
  filter (fun e => negb (now >? expiresAt (snd e))) (cache c).
Proof.
  intros Hwf. unfold Cache.clearExpired; simpl.
  rewrite loop_as_deletes, JsMapMore.fold_delete_filter.
  apply filter_ext_in. intros [k item] Hin; simpl. f_equal.
  destruct (now >? expiresAt item) eqn:E.
  - apply existsb_exists. exists k. split; [|apply String.eqb_refl].
    apply in_map_iff. exists (k, item). split; [reflexivity|].
    apply filter_In. now split.
  - apply not_true_iff_false. intros Hex.
    apply existsb_exists in Hex as (k' & Hk' & Heq).
    apply String.eqb_eq in Heq; subst k'.
    apply in_map_iff in Hk' as ([k' item'] & Hfst & Hin').
    simpl in Hfst; subst k'. apply filter_In in Hin' as [Hin' Hexp].
    simpl in Hexp.
    apply (JsMapMore.in_get _ _ _ _ Hwf) in Hin.
    apply (JsMapMore.in_get _ _ _ _ Hwf) in Hin'. congruence.
Qed.

Lemma clearExpired_wf now c :
  JsMap.wf (cache c) -> JsMap.wf (cache (Cache.clearExpired now c)).
Proof.
  intros Hwf. rewrite clearExpired_filter by assumption.
  now apply JsMapMore.wf_filter.
Qed.

Lemma clearExpired_entry now c k :
  JsMap.wf (cache c) ->
  Cache.entry k (Cache.clearExpired now c) =
  match Cache.entry k c with
  | Some item => if now >? expiresAt item then None else Some item
  | None => None
  end.
Proof.
  intros Hwf. unfold Cache.entry.
  rewrite clearExpired_filter, JsMapMore.get_filter by assumption.
  destruct (JsMap.get k (cache c)) as [item|]; [simpl|reflexivity].
  now destruct (now >? expiresAt item).
Qed.

End ExpiryFacts.

(** ** clearExpired *)

(** X1.  On a store that holds each key once, [clearExpired()] leaves
    exactly the entries with [now <= expiresAt], unchanged and in their
    order, and removes every entry with [now > expiresAt]; the store never
    grows and the default TTL stays. *)
Theorem clearExpired_keeps_live (now : Z) (c : APICache) :
  JsMap.wf (cache c) ->
  cache (Cache.clearExpired now c) =
    filter (fun e => negb (now >? expiresAt (snd e))) (cache c) /\
  (forall k item,
     Cache.entry k (Cache.clearExpired now c) = Some item <->
     Cache.entry k c = Some item /\ now <= expiresAt item) /\
  (Cache.size (Cache.clearExpired now c) <= Cache.size c)%nat /\
  defaultTTL (Cache.clearExpired now c) = defaultTTL c.
Proof.
  intros Hwf. split; [now apply ExpiryFacts.clearExpired_filter|].
  split; [|split; [|reflexivity]].
  - intros k item. rewrite ExpiryFacts.clearExpired_entry by assumption.
    destruct (Cache.entry k c) as [item'|]; [|split; [discriminate|]].
    + destruct (now >? expiresAt item') eqn:E.
      * apply Z.gtb_lt in E.
        split; [discriminate | intros [[= ->] Hle]; lia].
      * split; [intros [= ->] | now intros [H _]].
        split; [reflexivity|].
        destruct (Z_le_gt_dec now (expiresAt item)) as [Hle|Hgt];
          [assumption|].
        assert ((now >? expiresAt item) = true) by (apply Z.gtb_lt; lia).
        congruence.
    + now intros [H _].
  - unfold Cache.size, JsMap.size.
    rewrite ExpiryFacts.clearExpired_filter by assumption.
    apply filter_length_le.
Qed.

Lemma clearExpired_keeps_live_witness :
  let c := Cache.set "c" (VNum 3) (Some 5) 0
             (Cache.set "b" (VNum 2) (Some 50) 0
                (Cache.set "a" (VNum 1) (Some 10) 0 (Cache.new None))) in
  Cache.getStats (Cache.clearExpired 20 c) =
    {| Cache.stats_size := 1; Cache.stats_keys := ["b"%string] |} /\
  Cache.entry "b" (Cache.clearExpired 20 c) =
    Some {| data := VNum 2; timestamp := 0; expiresAt := 50 |}.
Proof.
  intros c.
  assert (Hwf : JsMap.wf (cache c))
    by (repeat constructor; simpl; intuition discriminate).
  destruct (clearExpired_keeps_live 20 c Hwf) as (Hcache & Hentry & _).
  split.
  - unfold Cache.getStats, JsMap.size, JsMap.keys. now rewrite Hcache.
  - apply Hentry. split; [reflexivity | simpl; lia].
Defined.

(** X2.  A sweep does not change what reads return: after
    [clearExpired()] at time [now], a [get] at [now] or later returns what
    it would have returned on the store before the sweep, and a [get] at
    the time of the sweep finds nothing left to purge. *)
Theorem clearExpired_invisible_to_get (now : Z) (c : APICache)
    (key : string) :
  JsMap.wf (cache c) ->
  (forall now', now <= now' ->
     fst (Cache.get key now' (Cache.clearExpired now c)) =
     fst (Cache.get key now' c)) /\
  snd (Cache.get key now (Cache.clearExpired now c)) =
    Cache.clearExpired now c.
Proof.
  intros Hwf.
  pose proof (ExpiryFacts.clearExpired_entry now c key Hwf) as Hentry.
  unfold Cache.entry in Hentry.
  split.
  - intros now' Hle. unfold Cache.get. rewrite Hentry.
    destruct (JsMap.get key (cache c)) as [item|]; [|reflexivity].
    destruct (now >? expiresAt item) eqn:E;
      [|now destruct (now' >? expiresAt item)].
    apply Z.gtb_lt in E.
    assert ((now' >? expiresAt item) = true) as -> by (apply Z.gtb_lt; lia).
    reflexivity.
  - unfold Cache.get. rewrite Hentry.
    destruct (JsMap.get key (cache c)) as [item|]; [|reflexivity].
    destruct (now >? expiresAt item) eqn:E; [reflexivity|].
    now rewrite E.
Qed.

Lemma clearExpired_invisible_to_get_witness :
  let c := Cache.set "b" (VNum 2) (Some 50) 0
             (Cache.set "a" (VNum 1) (Some 10) 0 (Cache.new None)) in
  fst (Cache.get "b" 30 (Cache.clearExpired 20 c)) = VNum 2 /\
  fst (Cache.get "a" 30 (Cache.clearExpired 20 c)) = VNull /\
  snd (Cache.get "a" 20 (Cache.clearExpired 20 c)) = Cache.clearExpired 20 c.
Proof.
  intros c.
  assert (Hwf : JsMap.wf (cache c))
    by (repeat constructor; simpl; intuition discriminate).
  split; [|split].
  - destruct (clearExpired_invisible_to_get 20 c "b" Hwf) as [H _].
    rewrite (H 30); [reflexivity | lia].
  - destruct (clearExpired_invisible_to_get 20 c "a" Hwf) as [H _].
    rewrite (H 30); [reflexivity | lia].
  - now destruct (clearExpired_invisible_to_get 20 c "a" Hwf) as [_ H].
Defined.

(** X3.  Sweeps absorb earlier sweeps: [clearExpired()] at [now2] after a
    [clearExpired()] at an earlier or equal time [now1] leaves the store
    that the sweep at [now2] alone leaves.  In particular a sweep repeated
    at the same time changes nothing. *)
Theorem clearExpired_absorbs (now1 now2 : Z) (c : APICache) :
  JsMap.wf (cache c) ->
  now1 <= now2 ->
  Cache.clearExpired now2 (Cache.clearExpired now1 c) =
  Cache.clearExpired now2 c.
Proof.
  intros Hwf Hle.
  assert (Hcache : cache (Cache.clearExpired now2 (Cache.clearExpired now1 c)) =
                   cache (Cache.clearExpired now2 c)).
  { rewrite (ExpiryFacts.clearExpired_filter now2)
      by now apply ExpiryFacts.clearExpired_wf.
    rewrite !ExpiryFacts.clearExpired_filter by assumption.
    clear Hwf. induction (cache c) as [|e m IH]; simpl; [reflexivity|].
    destruct (now1 >? expiresAt (snd e)) eqn:E1; simpl.
    - apply Z.gtb_lt in E1.
      assert ((now2 >? expiresAt (snd e)) = true) as ->
          by (apply Z.gtb_lt; lia).
      simpl. apply IH.
    - destruct (now2 >? expiresAt (snd e)); simpl; now rewrite IH. }
  unfold Cache.clearExpired at 1 3. unfold Cache.with_cache. f_equal.
  exact Hcache.
Qed.

Lemma clearExpired_absorbs_witness :
  let c := Cache.set "b" (VNum 2) (Some 50) 0
             (Cache.set "a" (VNum 1) (Some 10) 0 (Cache.new None)) in
  Cache.clearExpired 20 (Cache.clearExpired 20 c) = Cache.clearExpired 20 c /\
  Cache.clearExpired 60 (Cache.clearExpired 20 c) = Cache.clearExpired 60 c.
Proof.
  intros c.
  assert (Hwf : JsMap.wf (cache c))
    by (repeat constructor; simpl; intuition discriminate).
  split.
  - apply (clearExpired_absorbs 20 20 c Hwf). lia.
  - apply (clearExpired_absorbs 20 60 c Hwf). lia.
Defined.

(** ** delete, set and get *)

(** X4.  [delete(key)] removes the entry under [key] and nothing else:
    afterwards [get(key)] returns [null] at any time and leaves the store
    alone, the entries under the other keys and the order of their keys
    are unchanged, and deleting a key that holds nothing leaves the store
    exactly as it was. *)
Theorem delete_removes_only_key (c : APICache) (key : string) :
  (forall now, Cache.get key now (Cache.delete key c) =
               (VNull, Cache.delete key c)) /\
  (forall key', key' <> key ->
     Cache.entry key' (Cache.delete key c) = Cache.entry key' c) /\
  Cache.stats_keys (Cache.getStats (Cache.delete key c)) =
    filter (fun k => negb (String.eqb k key))
      (Cache.stats_keys (Cache.getStats c)) /\
  (Cache.entry key c = None -> Cache.delete key c = c).
Proof.
  split; [|split; [|split]].
  - intros now. apply CacheFacts.get_absent.
    rewrite CacheFacts.entry_delete. now rewrite String.eqb_refl.
  - intros key' Hne. rewrite CacheFacts.entry_delete.
    apply String.eqb_neq in Hne. now rewrite Hne.
  - apply JsMapFacts.keys_delete.
  - intros Habs. unfold Cache.delete, Cache.with_cache.
    rewrite JsMapFacts.delete_absent by exact Habs. now destruct c.
Qed.

Lemma delete_removes_only_key_witness :
  let c := Cache.set "b" (VNum 2) None 0
             (Cache.set "a" (VNum 1) None 0 (Cache.new None)) in
  Cache.delete "zz" c = c /\
  Cache.entry "b" (Cache.delete "a" c) = Cache.entry "b" c.
Proof.
  intros c.
  destruct (delete_removes_only_key c "zz") as (_ & _ & _ & Hnoop).
  destruct (delete_removes_only_key c "a") as (_ & Hother & _).
  split; [apply Hnoop; reflexivity | apply Hother; discriminate].
Defined.

(** X5.  [set] keeps the order of the keys: overwriting a key that holds
    an entry leaves the list of keys, and so [size()], as they were, and
    writing a key that holds none puts it last and makes [size()] one
    more. *)
Theorem set_keeps_key_order (c : APICache) (key : string) (d : value)
    (ttl : option Z) (now : Z) :
  (Cache.entry key c <> None ->
     Cache.stats_keys (Cache.getStats (Cache.set key d ttl now c)) =
       Cache.stats_keys (Cache.getStats c) /\
     Cache.size (Cache.set key d ttl now c) = Cache.size c) /\
  (Cache.entry key c = None ->
     Cache.stats_keys (Cache.getStats (Cache.set key d ttl now c)) =
       (Cache.stats_keys (Cache.getStats c) ++ [key])%list /\
     Cache.size (Cache.set key d ttl now c) = S (Cache.size c)).
Proof.
  assert (Hlen : forall c', Cache.size c' =
                   List.length (Cache.stats_keys (Cache.getStats c'))).
  { intros c'. unfold Cache.size, JsMap.size; simpl. unfold JsMap.keys.
    now rewrite length_map. }
  assert (Hkeys := JsMapFacts.keys_set CacheItem key
            {| data := d; timestamp := now;
               expiresAt := now + num_or ttl (defaultTTL c) |} (cache c)).
  split; intros Hentry.
  - assert (Hin : existsb (String.eqb key) (JsMap.keys (cache c)) = true).
    { apply existsb_exists. exists key. split; [|apply String.eqb_refl].
      now apply JsMapFacts.in_keys_get. }
    rewrite Hin in Hkeys.
    split; [exact Hkeys|]. rewrite !Hlen. simpl. now rewrite Hkeys.
  - assert (Hin : existsb (String.eqb key) (JsMap.keys (cache c)) = false).
    { apply not_true_iff_false. intros Hex.
      apply existsb_exists in Hex as (k & Hk & Heq).
      apply String.eqb_eq in Heq; subst k.
      apply JsMapFacts.in_keys_get in Hk. now apply Hk. }
    rewrite Hin in Hkeys.
    split; [exact Hkeys|]. rewrite !Hlen. simpl. rewrite Hkeys.
    rewrite length_app; simpl. lia.
Qed.

Lemma set_keeps_key_order_witness :
  let c := Cache.set "b" (VNum 2) None 0
             (Cache.set "a" (VNum 1) None 0 (Cache.new None)) in
  Cache.stats_keys (Cache.getStats (Cache.set "a" (VNum 9) None 5 c)) =
    ["a"%string; "b"%string] /\
  Cache.stats_keys (Cache.getStats (Cache.set "z" (VNum 9) None 5 c)) =
    ["a"%string; "b"%string; "z"%string].
Proof.
  intros c.
  destruct (set_keeps_key_order c "a" (VNum 9) None 5) as [Hold _].
  destruct (set_keeps_key_order c "z" (VNum 9) None 5) as [_ Hnew].
  split.
  - apply Hold. vm_compute. discriminate.
  - apply Hnew. reflexivity.
Defined.

(** X6.  A [get] only ever touches the key it reads: it returns [null]
    and leaves the store alone when the key holds nothing, leaves the
    store alone when the entry is not expired, never changes an entry
    under another key, and never makes the store larger. *)
Theorem get_touches_only_its_key (c : APICache) (key : string) (now : Z) :
  (Cache.entry key c = None -> Cache.get key now c = (VNull, c)) /\
  (forall item, Cache.entry key c = Some item -> now <= expiresAt item ->
     Cache.get key now c = (data item, c)) /\
  (forall key', key' <> key ->
     Cache.entry key' (snd (Cache.get key now c)) = Cache.entry key' c) /\
  (Cache.size (snd (Cache.get key now c)) <= Cache.size c)%nat.
Proof.
  split; [apply CacheFacts.get_absent|].
  split; [intros item; apply CacheFacts.get_fresh|].
  split.
  - intros key' Hne.
    destruct (CacheFacts.get_store key now c) as [-> | ->]; [reflexivity|].
    rewrite CacheFacts.entry_delete.
    apply String.eqb_neq in Hne. now rewrite Hne.
  - destruct (CacheFacts.get_store key now c) as [-> | ->]; [lia|].
    unfold Cache.size, Cache.delete, JsMap.size; simpl.
    rewrite JsMapMore.delete_filter. apply filter_length_le.
Qed.

Lemma get_touches_only_its_key_witness :
  let c := Cache.set "a" (VNum 1) (Some 10) 0 (Cache.new None) in
  Cache.get "zz" 5 c = (VNull, c) /\
  Cache.get "a" 10 c = (VNum 1, c).
Proof.
  intros c.
  destruct (get_touches_only_its_key c "zz" 5) as (Habs & _).
  destruct (get_touches_only_its_key c "a" 10) as (_ & Hfresh & _).
  split; [apply Habs; reflexivity|].
  apply (Hfresh {| data := VNum 1; timestamp := 0; expiresAt := 10 |});
    [reflexivity | simpl; lia].
Defined.

(** X7.  Expiry only moves one way.  On one and the same store, a [get]
    that returns [null] at some time returns [null] at every later time,
    and a [get] that returns a value other than [null] at some time
    returns that value at every earlier time. *)
Theorem expiry_is_monotone (c : APICache) (key : string) (now now' : Z) :
  now <= now' ->
  (fst (Cache.get key now c) = VNull -> fst (Cache.get key now' c) = VNull) /\
  (fst (Cache.get key now' c) <> VNull ->
   fst (Cache.get key now c) = fst (Cache.get key now' c)).
Proof.
  intros Hle. unfold Cache.get.
  destruct (JsMap.get key (cache c)) as [item|]; simpl;
    [|split; [trivial | congruence]].
  destruct (now >? expiresAt item) eqn:E; simpl.
  - apply Z.gtb_lt in E.
    assert ((now' >? expiresAt item) = true) as -> by (apply Z.gtb_lt; lia).
    simpl. split; [trivial | congruence].
  - destruct (now' >? expiresAt item); simpl; split; trivial; congruence.
Qed.

Lemma expiry_is_monotone_witness :
  let c := Cache.set "a" (VNum 1) (Some 10) 0 (Cache.new None) in
  fst (Cache.get "a" 99 c) = VNull /\
  fst (Cache.get "a" 3 c) = fst (Cache.get "a" 7 c).
Proof.
  intros c. split.
  - destruct (expiry_is_monotone c "a" 11 99) as [Hnull _]; [lia|].
    apply Hnull. reflexivity.
  - destruct (expiry_is_monotone c "a" 3 7) as [_ Hval]; [lia|].
    apply Hval. vm_compute. discriminate.
Defined.

(** ** Default and negative TTLs *)

(** X8.  When [set] is called without a TTL, or with the TTL [0], the
    entry lives for the default TTL of the instance: a [get] up to
    [defaultTTL] milliseconds after the write returns the value, a later
    one returns [null].  For [new APICache()] that is 300000 ms. *)
Theorem default_ttl_governs (c : APICache) (key : string) (d : value)
    (ttl : option Z) (t0 t : Z) :
  ttl = None \/ ttl = Some 0 ->
  let c1 := Cache.set key d ttl t0 c in
  (t <= defaultTTL c -> Cache.get key (t0 + t) c1 = (d, c1)) /\
  (defaultTTL c < t -> fst (Cache.get key (t0 + t) c1) = VNull) /\
  defaultTTL (Cache.new None) = 300000.
Proof.
  intros Httl c1.
  assert (Hentry : Cache.entry key c1 =
            Some {| data := d; timestamp := t0;
                    expiresAt := t0 + defaultTTL c |}).
  { unfold c1. rewrite CacheFacts.entry_set_same.
    now destruct Httl as [-> | ->]. }
  split; [|split; [|reflexivity]]; intros Ht.
  - rewrite (CacheFacts.get_fresh _ _ _ _ Hentry); simpl; [reflexivity | lia].
  - rewrite (CacheFacts.get_expired _ _ _ _ Hentry); simpl; [reflexivity | lia].
Qed.

Lemma default_ttl_governs_witness :
  let c1 := Cache.set "k" (VNum 1) None 1000 (Cache.new None) in
  Cache.get "k" (1000 + 300000) c1 = (VNum 1, c1) /\
  fst (Cache.get "k" (1000 + 300001)
         (Cache.set "k" (VNum 1) (Some 0) 1000 (Cache.new None))) = VNull.
Proof.
  intros c1. split.
  - apply (default_ttl_governs (Cache.new None) "k" (VNum 1) None 1000 300000);
      [now left | simpl; lia].
  - apply (default_ttl_governs (Cache.new None) "k" (VNum 1) (Some 0) 1000
             300001); [now right | simpl; lia].
Defined.

(** X9.  A negative TTL is taken as given: the entry is stored, listed by
    [getStats] and counted by [size], but it is already expired, so every
    [get] at or after the time of the write returns [null] and removes
    it. *)
Theorem negative_ttl_is_never_readable (c : APICache) (key : string)
    (d : value) (ttl t0 t : Z) :
  ttl < 0 ->
  0 <= t ->
  let c1 := Cache.set key d (Some ttl) t0 c in
  In key (Cache.stats_keys (Cache.getStats c1)) /\
  (0 < Cache.size c1)%nat /\
  Cache.get key (t0 + t) c1 = (VNull, Cache.delete key c1).
Proof.
  intros Hneg Ht c1.
  assert (Hentry : Cache.entry key c1 =
            Some {| data := d; timestamp := t0; expiresAt := t0 + ttl |}).
  { unfold c1. rewrite CacheFacts.entry_set_same. simpl.
    destruct (ttl =? 0) eqn:E; [apply Z.eqb_eq in E; lia | reflexivity]. }
  assert (Hin : In key (JsMap.keys (cache c1))).
  { apply JsMapFacts.in_keys_get. unfold Cache.entry in Hentry.
    rewrite Hentry. discriminate. }
  split; [exact Hin|]. split.
  - unfold Cache.size, JsMap.size. unfold JsMap.keys in Hin.
    destruct (cache c1); [contradiction | simpl; lia].
  - apply (CacheFacts.get_expired _ _ _ _ Hentry). simpl. lia.
Qed.

Lemma negative_ttl_is_never_readable_witness :
  let c1 := Cache.set "k" (VNum 1) (Some (-1)) 1000 (Cache.new None) in
  In "k"%string (Cache.stats_keys (Cache.getStats c1)) /\
  (0 < Cache.size c1)%nat /\
  Cache.get "k" (1000 + 0) c1 = (VNull, Cache.delete "k" c1).
Proof.
  intros c1.
  apply (negative_ttl_is_never_readable (Cache.new None) "k" (VNum 1) (-1)
           1000 0); lia.
Defined.

(** ** What every instance satisfies *)

(** X10.  Whatever sequence of [set], [get], [has], [delete], [clear] and
    [clearExpired] calls an instance has gone through since its
    construction, the keys that [getStats] lists are pairwise distinct and
    their number is the [size] it reports, which is [size()]. *)
Theorem reachable_keys_distinct (c : APICache) :
  reachable c ->
  NoDup (Cache.stats_keys (Cache.getStats c)) /\
  Cache.stats_size (Cache.getStats c) =
    List.length (Cache.stats_keys (Cache.getStats c)) /\
  Cache.size c = Cache.stats_size (Cache.getStats c).
Proof.
  intros Hreach.
  split; [|split; [|reflexivity]].
  - change (JsMap.wf (cache c)).
    induction Hreach as [ttl | key d ttl now c _ IH | key now c _ IH
                        | key now c _ IH | key c _ IH | c _ _ | now c _ IH].
    + constructor.
    + now apply CacheFacts.set_keeps_wf.
    + now apply CacheFacts.get_keeps_wf.
    + unfold Cache.has.
      pose proof (CacheFacts.get_keeps_wf key now c IH) as Hget.
      now destruct (Cache.get key now c).
    + now apply JsMapFacts.wf_delete.
    + constructor.
    + now apply ExpiryFacts.clearExpired_wf.
  - simpl. unfold JsMap.size, JsMap.keys. now rewrite length_map.
Qed.

Lemma reachable_keys_distinct_witness :
  let c := Cache.clearExpired 20
             (Cache.set "a" (VNum 3) None 7
                (Cache.set "b" (VNum 2) (Some 5) 0
                   (Cache.set "a" (VNum 1) None 0 (Cache.new None)))) in
  NoDup (Cache.stats_keys (Cache.getStats c)) /\
  Cache.size c = 1%nat.
Proof.
  intros c.
  destruct (reachable_keys_distinct c) as (Hnd & _).
  - unfold c. repeat constructor.
  - split; [exact Hnd | reflexivity].
Defined.

(** * Further properties of fetchWithCache and clearCacheByPattern *)

Module FetchMore.

Lemma null_or_not (v : value) : v = VNull \/ v <> VNull.
Proof. destruct v; (now left) || (right; discriminate). Qed.

Lemma with_own_cache w : with_apiCache w (apiCache w) = w.
Proof. now destruct w. Qed.

Lemma reaches_network url options cacheTTL w :
  (methodOf options = "GET"%string ->
   fst (Cache.get (cacheKeyOf options url) (clock w) (apiCache w)) = VNull) ->
  fetchWithCache url options cacheTTL w =
  fetchFromAPI url options cacheTTL
    (with_apiCache w (store_after_lookup w url options)).
Proof.
  intros Hmiss. unfold store_after_lookup.
  destruct (String.eqb_spec (methodOf options) "GET") as [E|E].
  - now apply FetchFacts.fetchWithCache_miss; [|apply Hmiss].
  - rewrite FetchFacts.fetchWithCache_bypass by assumption.
    now rewrite with_own_cache.
Qed.

Lemma store_after_lookup_entry w url options k :
  k <> cacheKeyOf options url ->
  Cache.entry k (store_after_lookup w url options) =
  Cache.entry k (apiCache w).
Proof.
  intros Hne. unfold store_after_lookup.
  destruct (String.eqb (methodOf options) "GET"); [|reflexivity].
  destruct (CacheFacts.get_store (cacheKeyOf options url) (clock w)
              (apiCache w)) as [-> | ->]; [reflexivity|].
  rewrite CacheFacts.entry_delete.
  apply String.eqb_neq in Hne. now rewrite Hne.
Qed.

Lemma store_after_lookup_subset w url options k item :
  Cache.entry k (store_after_lookup w url options) = Some item ->
  Cache.entry k (apiCache w) = Some item.
Proof.
  unfold store_after_lookup.
  destruct (String.eqb (methodOf options) "GET"); [|trivial].
  destruct (CacheFacts.get_store (cacheKeyOf options url) (clock w)
              (apiCache w)) as [-> | ->]; [trivial|].
  rewrite CacheFacts.entry_delete.
  destruct (String.eqb k (cacheKeyOf options url)); [discriminate | trivial].
Qed.

End FetchMore.

(** X11.  A GET call whose cache key holds an entry that is not expired
    and whose value is not [null] returns that value and does nothing
    else: no request is sent, and the store, the clock and the log are
    what they were. *)
Theorem cache_hit_is_pure (w : World) (url : string)
    (options : option RequestInit) (cacheTTL : option Z) (item : CacheItem) :
  methodOf options = "GET"%string ->
  Cache.entry (cacheKeyOf options url) (apiCache w) = Some item ->
  clock w <= expiresAt item ->
  data item <> VNull ->
  fetchWithCache url options cacheTTL w = (Return (data item), w) /\
  sent w (snd (fetchWithCache url options cacheTTL w)) = 0.
Proof.
  intros Hget Hentry Hfresh Hdata.
  assert (Hrun : fetchWithCache url options cacheTTL w = (Return (data item), w)).
  { rewrite FetchFacts.fetchWithCache_hit;
      rewrite ?(CacheFacts.get_fresh _ _ _ _ Hentry Hfresh); simpl;
      try assumption.
    now rewrite FetchMore.with_own_cache. }
  split; [exact Hrun|]. rewrite Hrun. unfold sent; simpl. lia.
Qed.

Lemma cache_hit_is_pure_witness :
  let srv := fun (_ : nat) (_ : Request) => Rejects 0 in
  let w := {| apiCache := Cache.set "GET:https://a/x" (VNum 1) (Some 100) 0
                            (Cache.new None);
              clock := 100; server := srv; requests := [] |} in
  fetchWithCache "https://a/x" None None w = (Return (VNum 1), w) /\
  sent w (snd (fetchWithCache "https://a/x" None None w)) = 0.
Proof.
  intros srv w.
  apply (cache_hit_is_pure w "https://a/x" None None
           {| data := VNum 1; timestamp := 0; expiresAt := 100 |}).
  - reflexivity.
  - reflexivity.
  - simpl; lia.
  - discriminate.
Defined.

(** X12.  When the request of a call is lost ([fetch] rejects) or its
    response is [ok] but the body is not JSON ([response.json()] rejects),
    the call throws that error and writes nothing: every entry in the
    store afterwards was there before, and after a GET call that failed
    so a [get] of the cache key returns [null] at any time. *)
Theorem network_failure_not_cached (w : World) (url : string)
    (options : option RequestInit) (cacheTTL : option Z) (err : error) :
  (methodOf options = "GET"%string ->
   fst (Cache.get (cacheKeyOf options url) (clock w) (apiCache w)) = VNull) ->
  (exists d, next_exchange w (url, options) = Rejects d /\
             err = NetworkError) \/
  (exists d r, next_exchange w (url, options) = Resolves d r /\
               ok r = true /\ json r = None /\ err = SyntaxError) ->
  let run := fetchWithCache url options cacheTTL w in
  fst run = Throw err /\
  sent w (snd run) = 1 /\
  apiCache (snd run) = store_after_lookup w url options /\
  (forall k item, Cache.entry k (apiCache (snd run)) = Some item ->
                  Cache.entry k (apiCache w) = Some item) /\
  (methodOf options = "GET"%string ->
   forall now, fst (Cache.get (cacheKeyOf options url) now
                      (apiCache (snd run))) = VNull).
Proof.
  intros Hmiss Hex run.
  assert (Hrun : run = fetchFromAPI url options cacheTTL
            (with_apiCache w (store_after_lookup w url options)))
    by now apply FetchMore.reaches_network.
  destruct (FetchFacts.fetchFromAPI_run url options cacheTTL
              (with_apiCache w (store_after_lookup w url options)))
    as (Hres & Hreq & _ & Hcache).
  rewrite <- Hrun in Hres, Hreq, Hcache.
  change (next_exchange (with_apiCache w _) (url, options))
    with (next_exchange w (url, options)) in Hres, Hcache.
  assert (Hans : answer (next_exchange w (url, options)) = Throw err).
  { destruct Hex as [(d & -> & ->) | (d & r & -> & Hok & Hjson & ->)]; simpl;
      [reflexivity | now rewrite Hok, Hjson]. }
  rewrite Hans in Hres, Hcache. simpl in Hreq, Hcache.
  split; [assumption|].
  split; [now apply FetchFacts.sent_app with (url, options)|].
  split; [assumption|]. split.
  - intros k item. rewrite Hcache.
    apply FetchMore.store_after_lookup_subset.
  - intros Hget now. rewrite Hcache. unfold store_after_lookup.
    rewrite Hget; simpl String.eqb; cbv iota.
    apply CacheFacts.get_null_stays. now apply Hmiss.
Qed.

Lemma network_failure_not_cached_witness :
  let srv := fun (n : nat) (_ : Request) =>
    match n with
    | O => Rejects 3
    | _ => Resolves 5 {| ok := true; status := 200; json := None;
                         json_delay := 1 |}
    end in
  let w := boot 0 srv in
  let run1 := fetchWithCache "https://a/x" None None w in
  let run2 := fetchWithCache "https://a/x" None None (snd run1) in
  (fst run1 = Throw NetworkError /\ apiCache (snd run1) = apiCache w) /\
  (fst run2 = Throw SyntaxError /\ apiCache (snd run2) = apiCache w).
Proof.
  intros srv w run1 run2.
  destruct (network_failure_not_cached w "https://a/x" None None NetworkError)
    as (H1 & _ & H1c & _);
    [reflexivity | left; now exists 3 |].
  destruct (network_failure_not_cached (snd run1) "https://a/x" None None
              SyntaxError) as (H2 & _ & H2c & _);
    [reflexivity
    | right; exists 5, {| ok := true; status := 200; json := None;
                          json_delay := 1 |}; now repeat split |].
  split; split; assumption.
Defined.

(** X13.  A GET call that goes to the network and gets a parsed [ok]
    response returns the parsed value and stores it under its cache key.
    The entry is stamped when the body has been read, not when the call
    began: [timestamp] is the clock after both awaits, and [expiresAt] is
    that plus [cacheTTL || defaultTTL]. *)
Theorem successful_get_is_cached (w : World) (url : string)
    (options : option RequestInit) (cacheTTL : option Z) (d : Z)
    (r : Response) (v : value) :
  methodOf options = "GET"%string ->
  fst (Cache.get (cacheKeyOf options url) (clock w) (apiCache w)) = VNull ->
  next_exchange w (url, options) = Resolves d r ->
  ok r = true ->
  json r = Some v ->
  let run := fetchWithCache url options cacheTTL w in
  fst run = Return v /\
  clock (snd run) = clock w + d + json_delay r /\
  Cache.entry (cacheKeyOf options url) (apiCache (snd run)) =
    Some {| data := v; timestamp := clock w + d + json_delay r;
            expiresAt := clock w + d + json_delay r +
                         num_or cacheTTL (defaultTTL (apiCache w)) |}.
Proof.
  intros Hget Hmiss Hex Hok Hjson run.
  assert (Hrun : run = fetchFromAPI url options cacheTTL
            (with_apiCache w
               (snd (Cache.get (cacheKeyOf options url) (clock w)
                       (apiCache w)))))
    by now apply FetchFacts.fetchWithCache_miss.
  assert (Hclock : clock (snd run) = clock w + d + json_delay r).
  { rewrite Hrun. unfold fetchFromAPI, bind, fetch.
    unfold next_exchange in Hex. simpl. rewrite Hex, Hok. simpl.
    unfold response_json. rewrite Hjson. simpl.
    now destruct (String.eqb (methodOf options) "GET"). }
  destruct (FetchFacts.fetchFromAPI_run url options cacheTTL
              (with_apiCache w
                 (snd (Cache.get (cacheKeyOf options url) (clock w)
                         (apiCache w)))))
    as (Hres & _ & _ & Hcache).
  rewrite <- Hrun in Hres, Hcache.
  change (next_exchange (with_apiCache w _) (url, options))
    with (next_exchange w (url, options)) in Hres, Hcache.
  rewrite Hex in Hres, Hcache. simpl in Hres, Hcache.
  rewrite Hok, Hjson in Hres, Hcache. rewrite Hget in Hcache.
  simpl in Hcache.
  split; [assumption|]. split; [assumption|].
  rewrite Hcache, CacheFacts.entry_set_same, Hclock.
  now rewrite get_keeps_defaultTTL.
Qed.

Lemma successful_get_is_cached_witness :
  let r := {| ok := true; status := 200; json := Some (VNum 7);
              json_delay := 2 |} in
  let w := boot 1000 (fun _ _ => Resolves 30 r) in
  let run := fetchWithCache "https://a/x" None (Some 500) w in
  fst run = Return (VNum 7) /\
  clock (snd run) = 1000 + 30 + 2 /\
  Cache.entry "GET:https://a/x" (apiCache (snd run)) =
    Some {| data := VNum 7; timestamp := 1000 + 30 + 2;
            expiresAt := 1000 + 30 + 2 + 500 |}.
Proof.
  intros r w run.
  apply (successful_get_is_cached w "https://a/x" None (Some 500) 30 r
           (VNum 7)); reflexivity.
Defined.

(** X14.  A call touches at most the entry under its own cache key and
    sends at most one request: whatever the outcome, the entries under
    every other key are what they were, and the log grows by one request
    or, exactly when a GET lookup finds a value other than [null], by
    none. *)
Theorem fetch_touches_only_its_key (w : World) (url : string)
    (options : option RequestInit) (cacheTTL : option Z) :
  let run := fetchWithCache url options cacheTTL w in
  (forall k, k <> cacheKeyOf options url ->
     Cache.entry k (apiCache (snd run)) = Cache.entry k (apiCache w)) /\
  (sent w (snd run) = 0 \/ sent w (snd run) = 1) /\
  (sent w (snd run) = 0 <->
     methodOf options = "GET"%string /\
     fst (Cache.get (cacheKeyOf options url) (clock w) (apiCache w))
       <> VNull).
Proof.
  intros run.
  destruct (String.eqb_spec (methodOf options) "GET") as [Hget|Hget].
  - destruct (FetchMore.null_or_not
                (fst (Cache.get (cacheKeyOf options url) (clock w)
                        (apiCache w)))) as [Hnull|Hnn].
    + (* miss *)
      assert (Hrun : run = fetchFromAPI url options cacheTTL
                (with_apiCache w (store_after_lookup w url options)))
        by (apply FetchMore.reaches_network; now intros _).
      destruct (FetchFacts.fetchFromAPI_run url options cacheTTL
                  (with_apiCache w (store_after_lookup w url options)))
        as (_ & Hreq & _ & Hcache).
      rewrite <- Hrun in Hreq, Hcache. simpl in Hreq, Hcache.
      assert (Hsent : sent w (snd run) = 1)
        by now apply FetchFacts.sent_app with (url, options).
      split; [|split; [now right|]].
      * intros k Hne. rewrite Hcache.
        destruct (answer _);
          [|now apply FetchMore.store_after_lookup_entry].
        destruct (String.eqb (methodOf options) "GET");
          [|now apply FetchMore.store_after_lookup_entry].
        rewrite CacheFacts.entry_set_other by assumption.
        now apply FetchMore.store_after_lookup_entry.
      * split; [lia | intros [_ Hnn]; contradiction].
    + (* hit *)
      assert (Hrun : run = (Return (fst (Cache.get (cacheKeyOf options url)
                                           (clock w) (apiCache w))),
                            with_apiCache w
                              (snd (Cache.get (cacheKeyOf options url)
                                      (clock w) (apiCache w)))))
        by now apply FetchFacts.fetchWithCache_hit.
      assert (Hsent : sent w (snd run) = 0)
        by (rewrite Hrun; unfold sent; simpl; lia).
      split; [|split; [now left | now split]].
      intros k Hne. rewrite Hrun; simpl.
      destruct (CacheFacts.get_store (cacheKeyOf options url) (clock w)
                  (apiCache w)) as [-> | ->]; [reflexivity|].
      rewrite CacheFacts.entry_delete.
      apply String.eqb_neq in Hne. now rewrite Hne.
  - assert (Hrun : run = fetchFromAPI url options cacheTTL w)
      by now apply FetchFacts.fetchWithCache_bypass.
    destruct (FetchFacts.fetchFromAPI_run url options cacheTTL w)
      as (_ & Hreq & _ & Hcache).
    rewrite <- Hrun in Hreq, Hcache.
    assert (Hsent : sent w (snd run) = 1)
      by now apply FetchFacts.sent_app with (url, options).
    split; [|split; [now right|]].
    + intros k Hne. rewrite Hcache.
      apply String.eqb_neq in Hget. rewrite Hget.
      now destruct (answer _).
    + split; [lia | intros [Hg _]; contradiction].
Qed.

Lemma fetch_touches_only_its_key_witness :
  let r := {| ok := true; status := 200; json := Some (VNum 7);
              json_delay := 0 |} in
  let w := {| apiCache := Cache.set "GET:https://b/z" (VNum 2) (Some 10) 0
                            (Cache.new None);
              clock := 50; server := fun _ _ => Resolves 0 r;
              requests := [] |} in
  let run := fetchWithCache "https://a/x" None None w in
  Cache.entry "GET:https://b/z" (apiCache (snd run)) =
    Some {| data := VNum 2; timestamp := 0; expiresAt := 10 |} /\
  sent w (snd run) <> 0.
Proof.
  intros r w run.
  destruct (fetch_touches_only_its_key w "https://a/x" None None)
    as (Hother & _ & Hzero).
  split.
  - apply (Hother "GET:https://b/z"%string). discriminate.
  - intros H0. apply Hzero in H0 as [_ Hnn]. now apply Hnn.
Defined.

(** ** Cache keys *)

Module KeyFacts.

Lemma append_inj_r (m a b : string) : (m ++ a = m ++ b)%string -> a = b.
Proof.
  induction m as [|c m IH]; simpl; [trivial|].
  intros [= H]. now apply IH.
Qed.

Lemma no_colon_cons (c : ascii) (s : string) :
  includes (String c s) ":" = false ->
  c <> ":"%char /\ includes s ":" = false.
Proof.
  cbn [includes].
  destruct (String.prefix ":" (String c s)) eqn:P; [discriminate|].
  intros Hs. split; [|assumption].
  intros ->. simpl in P. now destruct s.
Qed.

Lemma split_at_colon (m1 m2 u1 u2 : string) :
  includes m1 ":" = false -> includes m2 ":" = false ->
  (m1 ++ ":" ++ u1 = m2 ++ ":" ++ u2)%string ->
  m1 = m2 /\ u1 = u2.
Proof.
  revert m2; induction m1 as [|c1 m1 IH]; intros [|c2 m2] H1 H2; simpl.
  - intros [= ->]. now split.
  - intros [= <- _]. apply no_colon_cons in H2 as [Hc _]. now elim Hc.
  - intros [= -> _]. apply no_colon_cons in H1 as [Hc _]. now elim Hc.
  - intros [= -> Heq].
    apply no_colon_cons in H1 as [_ H1]. apply no_colon_cons in H2 as [_ H2].
    destruct (IH m2 H1 H2 Heq) as [-> ->]. now split.
Qed.

End KeyFacts.

(** X15.  The cache key tells requests apart.  Two calls with the same
    method share a key only when they have the same URL, query string
    included; and when neither method contains a colon, as no HTTP method
    does, two calls share a key only when method and URL both agree.
    Calls that give no options, no method, or the empty method are GET
    calls and share the key ["GET:" + url]. *)
Theorem cache_key_separates (o1 o2 : option RequestInit) (u1 u2 : string) :
  (methodOf o1 = methodOf o2 ->
   cacheKeyOf o1 u1 = cacheKeyOf o2 u2 -> u1 = u2) /\
  (includes (methodOf o1) ":" = false ->
   includes (methodOf o2) ":" = false ->
   cacheKeyOf o1 u1 = cacheKeyOf o2 u2 ->
   methodOf o1 = methodOf o2 /\ u1 = u2) /\
  (forall body,
     cacheKeyOf None u1 = ("GET:" ++ u1)%string /\
     cacheKeyOf (Some {| init_method := None; init_body := body |}) u1 =
       cacheKeyOf None u1 /\
     cacheKeyOf (Some {| init_method := Some ""%string;
                         init_body := body |}) u1 =
       cacheKeyOf None u1).
Proof.
  unfold cacheKeyOf. split; [|split].
  - intros Hm Hkey. rewrite Hm in Hkey.
    apply KeyFacts.append_inj_r in Hkey. simpl in Hkey. now injection Hkey.
  - intros H1 H2 Hkey. now apply KeyFacts.split_at_colon.
  - intros body. repeat split.
Qed.

Lemma cache_key_separates_witness :
  let post := Some {| init_method := Some "POST"%string;
                      init_body := None |} in
  (cacheKeyOf None "https://a/x?p=1" = cacheKeyOf None "https://a/x?p=1") /\
  (cacheKeyOf None "https://a/x" = cacheKeyOf post "https://a/x" -> False).
Proof.
  intros post. split; [reflexivity|].
  intros Hkey.
  destruct (cache_key_separates None post "https://a/x" "https://a/x")
    as (_ & Hsep & _).
  destruct (Hsep eq_refl eq_refl Hkey) as [Hm _]. discriminate Hm.
Defined.

(** ** More on clearCacheByPattern *)

Module ClearMore.

Lemma includes_empty (s : string) : includes s "" = true.
Proof. now destruct s. Qed.

Lemma fold_delete_defaultTTL ks c :
  defaultTTL (fold_left (fun c k => Cache.delete k c) ks c) = defaultTTL c.
Proof.
  revert c; induction ks as [|k ks IH]; intros c; simpl; [reflexivity|].
  now rewrite IH.
Qed.

(** The run of [clearCacheByPattern], as the deletions it performs. *)
Lemma run pattern w :
  clearCacheByPattern pattern w =
  forEach
    (filter (fun key => includes key pattern)
       (JsMap.keys (cache (apiCache w))))
    apiCache_delete w.
Proof. reflexivity. Qed.

Lemma keys_after pattern w :
  JsMap.keys (cache (apiCache (snd (clearCacheByPattern pattern w)))) =
  filter (fun k => negb (includes k pattern))
    (JsMap.keys (cache (apiCache w))).
Proof.
  rewrite run.
  destruct (ClearFacts.forEach_delete
              (filter (fun key => includes key pattern)
                 (JsMap.keys (cache (apiCache w)))) w) as (_ & -> & _).
  rewrite ClearFacts.keys_fold_delete.
  apply filter_ext_in. intros k Hin.
  rewrite ClearFacts.existsb_filter.
  apply ClearFacts.existsb_eqb_in in Hin. rewrite Hin.
  now rewrite andb_true_r.
Qed.

Lemma entry_after pattern w k :
  Cache.entry k (apiCache (snd (clearCacheByPattern pattern w))) =
  if includes k pattern then None else Cache.entry k (apiCache w).
Proof.
  rewrite run.
  destruct (ClearFacts.forEach_delete
              (filter (fun key => includes key pattern)
                 (JsMap.keys (cache (apiCache w)))) w) as (_ & -> & _).
  rewrite ClearFacts.entry_fold_delete, ClearFacts.existsb_filter.
  destruct (includes k pattern); simpl; [|reflexivity].
  destruct (existsb (String.eqb k) (JsMap.keys (cache (apiCache w)))) eqn:E;
    [reflexivity|].
  destruct (Cache.entry k (apiCache w)) eqn:G; [|reflexivity].
  assert (Hin : In k (JsMap.keys (cache (apiCache w))))
    by (apply JsMapFacts.in_keys_get; unfold Cache.entry in G; congruence).
  apply ClearFacts.existsb_eqb_in in Hin. congruence.
Qed.

Lemma forEach_server ks w :
  server (snd (forEach ks apiCache_delete w)) = server w.
Proof.
  revert w; induction ks as [|k ks IH]; intros w; simpl; [reflexivity|].
  unfold bind, apiCache_delete at 1. now rewrite IH.
Qed.

Lemma filter_twice (f : string -> bool) (l : list string) :
  filter f (filter (fun k => negb (f k)) l) = [].
Proof.
  induction l as [|k l IH]; simpl; [reflexivity|].
  destruct (f k) eqn:F; simpl; [assumption|]. now rewrite F.
Qed.

End ClearMore.

(** X16.  Invalidation works: after [clearCacheByPattern(pattern)], a GET
    call whose cache key contains the pattern goes to the network, even
    when a live entry was cached for it; the clearing itself sends
    nothing and does not move the clock. *)
Theorem invalidation_forces_refetch (pattern : string) (w : World)
    (url : string) (options : option RequestInit) (cacheTTL : option Z) :
  methodOf options = "GET"%string ->
  includes (cacheKeyOf options url) pattern = true ->
  let w1 := snd (clearCacheByPattern pattern w) in
  requests w1 = requests w /\
  clock w1 = clock w /\
  requests (snd (fetchWithCache url options cacheTTL w1)) =
    (requests w ++ [(url, options)])%list /\
  fst (fetchWithCache url options cacheTTL w1) =
    answer (next_exchange w (url, options)).
Proof.
  intros Hget Hinc w1.
  assert (Hframe : requests w1 = requests w /\ clock w1 = clock w /\
                   server w1 = server w).
  { unfold w1. rewrite ClearMore.run.
    destruct (ClearFacts.forEach_delete
                (filter (fun key => includes key pattern)
                   (JsMap.keys (cache (apiCache w)))) w)
      as (_ & _ & Hclock & Hreq).
    split; [assumption|]. split; [assumption|].
    apply ClearMore.forEach_server. }
  destruct Hframe as (Hreq & Hclock & Hsrv).
  assert (Hmiss : fst (Cache.get (cacheKeyOf options url) (clock w1)
                         (apiCache w1)) = VNull).
  { rewrite CacheFacts.get_absent; [reflexivity|].
    unfold w1. now rewrite ClearMore.entry_after, Hinc. }
  rewrite FetchFacts.fetchWithCache_miss by assumption.
  destruct (FetchFacts.fetchFromAPI_run url options cacheTTL
              (with_apiCache w1
                 (snd (Cache.get (cacheKeyOf options url) (clock w1)
                         (apiCache w1)))))
    as (Hres & Hreq' & _).
  simpl in Hreq'. rewrite Hreq in Hreq'.
  split; [assumption|]. split; [assumption|]. split; [assumption|].
  rewrite Hres. unfold next_exchange; simpl. now rewrite Hreq, Hsrv.
Qed.

Lemma invalidation_forces_refetch_witness :
  let r := {| ok := true; status := 200; json := Some (VNum 8);
              json_delay := 0 |} in
  let w := {| apiCache := Cache.set "GET:https://a/x" (VNum 1) None 0
                            (Cache.new None);
              clock := 10; server := fun _ _ => Resolves 0 r;
              requests := [] |} in
  fst (fetchWithCache "https://a/x" None None w) = Return (VNum 1) /\
  fst (fetchWithCache "https://a/x" None None
         (snd (clearCacheByPattern "/a/" w))) = Return (VNum 8).
Proof.
  intros r w. split; [reflexivity|].
  destruct (invalidation_forces_refetch "/a/" w "https://a/x" None None)
    as (_ & _ & _ & Hres); [reflexivity | reflexivity |].
  exact Hres.
Defined.

(** X17.  [clearCacheByPattern] run a second time with the same pattern
    finds nothing to delete and leaves the world as the first run left
    it.  With the empty pattern, which every key contains, it empties the
    store, as [clear()] does. *)
Theorem clear_by_pattern_twice (pattern : string) (w : World) :
  let w1 := snd (clearCacheByPattern pattern w) in
  clearCacheByPattern pattern w1 = (Return tt, w1) /\
  apiCache (snd (clearCacheByPattern "" w)) = Cache.clear (apiCache w).
Proof.
  intros w1. split.
  - rewrite ClearMore.run. unfold w1. rewrite ClearMore.keys_after.
    now rewrite ClearMore.filter_twice.
  - pose proof (ClearMore.keys_after "" w) as Hkeys.
    assert (Hnil : filter (fun k => negb (includes k ""))
                     (JsMap.keys (cache (apiCache w))) = []).
    { apply ClearFacts.filter_none. intros k _.
      now rewrite ClearMore.includes_empty. }
    rewrite Hnil in Hkeys. apply JsMapMore.keys_nil in Hkeys.
    assert (Httl : defaultTTL (apiCache (snd (clearCacheByPattern "" w))) =
                   defaultTTL (apiCache w)).
    { rewrite ClearMore.run.
      destruct (ClearFacts.forEach_delete
                  (filter (fun key => includes key "")
                     (JsMap.keys (cache (apiCache w)))) w) as (_ & -> & _).
      apply ClearMore.fold_delete_defaultTTL. }
    unfold Cache.clear, Cache.with_cache, JsMap.empty.
    destruct (apiCache (snd (clearCacheByPattern "" w))) as [m ttl].
    simpl in Hkeys, Httl. now subst.
Qed.

(** X18.  The functions that work on the singleton keep its keys
    distinct: if [getStats] lists no key twice before a [fetchWithCache]
    or a [clearCacheByPattern] call, it lists none twice after it,
    whatever the network answered. *)
Theorem singleton_keys_stay_distinct (w : World) (url : string)
    (options : option RequestInit) (cacheTTL : option Z) (pattern : string) :
  NoDup (Cache.stats_keys (Cache.getStats (apiCache w))) ->
  NoDup (Cache.stats_keys (Cache.getStats
           (apiCache (snd (fetchWithCache url options cacheTTL w))))) /\
  NoDup (Cache.stats_keys (Cache.getStats
           (apiCache (snd (clearCacheByPattern pattern w))))).
Proof.
  intros Hwf. change (JsMap.wf (cache (apiCache w))) in Hwf. split.
  - change (JsMap.wf (cache (apiCache
              (snd (fetchWithCache url options cacheTTL w))))).
    assert (Hlook : JsMap.wf (cache (store_after_lookup w url options))).
    { unfold store_after_lookup.
      destruct (String.eqb (methodOf options) "GET"); [|assumption].
      now apply CacheFacts.get_keeps_wf. }
    destruct (String.eqb_spec (methodOf options) "GET") as [Hget|Hget].
    + destruct (FetchMore.null_or_not
                  (fst (Cache.get (cacheKeyOf options url) (clock w)
                          (apiCache w)))) as [Hnull|Hnn].
      * rewrite FetchMore.reaches_network by now intros _.
        destruct (FetchFacts.fetchFromAPI_run url options cacheTTL
                    (with_apiCache w (store_after_lookup w url options)))
          as (_ & _ & _ & ->). simpl.
        destruct (answer _); [|assumption].
        destruct (String.eqb (methodOf options) "GET"); [|assumption].
        now apply CacheFacts.set_keeps_wf.
      * rewrite FetchFacts.fetchWithCache_hit by assumption. simpl.
        now apply CacheFacts.get_keeps_wf.
    + rewrite FetchFacts.fetchWithCache_bypass by assumption.
      destruct (FetchFacts.fetchFromAPI_run url options cacheTTL w)
        as (_ & _ & _ & ->).
      apply String.eqb_neq in Hget. rewrite Hget.
      now destruct (answer _).
  - simpl. rewrite ClearMore.keys_after. now apply NoDup_filter.
Qed.

Lemma singleton_keys_stay_distinct_witness :
  let r := {| ok := true; status := 200; json := Some (VNum 7);
              json_delay := 0 |} in
  let w := {| apiCache := Cache.set "GET:https://a/x" (VNum 1) (Some 5) 0
                            (Cache.new None);
              clock := 10; server := fun _ _ => Resolves 0 r;
              requests := [] |} in
  NoDup (Cache.stats_keys (Cache.getStats
           (apiCache (snd (fetchWithCache "https://a/x" None None w))))) /\
  NoDup (Cache.stats_keys (Cache.getStats
           (apiCache (snd (clearCacheByPattern "/a/" w))))).
Proof.
  intros r w.
  apply (singleton_keys_stay_distinct w "https://a/x" None None "/a/").
  repeat constructor; simpl; tauto.
Defined.
